(** * SystemData: the telemetry snapshot pipeline and its refresh scheduler

    A shallow embedding of [read_data.py] (collectors, [collect],
    [read_system_data]) and of the refresh logic of [display_data.py]
    ([on_mount], [refresh_data], [action_refresh], [action_toggle_refresh]),
    with the properties the specification states about them.

    Python values are modelled as follows: [int] as [Z], [str] as [string],
    [float] as [Q] (floats are only carried around, never computed with),
    [None] as [option], a [dict] used as a map as [gmap], a [list] as [list].
    Every query against the host (psutil, platform, socket, uuid, datetime)
    is a field of the record [OS]; a query that can raise returns a
    [result]. *)

From Stdlib Require Import ZArith QArith Ascii String.
From stdpp Require Import gmap strings list pretty sorting.

Local Open Scope string_scope.
Local Open Scope Z_scope.

(** ** Exceptions and results *)

(** The exception classes the source distinguishes in its [except] clauses.
    All of them derive from [Exception]; [exn_msg] is [str(e)]. *)
Inductive exn_class : Type :=
  | NoSuchProcess
  | AccessDenied
  | ZombieProcess
  | OtherException.

Record exn : Type := mk_exn { exn_cls : exn_class; exn_msg : string }.

Inductive result (A : Type) : Type :=
  | Ok (a : A)
  | Raise (e : exn).
Arguments Ok {A} a.
Arguments Raise {A} e.

Definition is_ok {A} (r : result A) : bool :=
  match r with Ok _ => true | Raise _ => false end.

(** ** Formatting of the node identifier *)

Module Mac.

Definition hex_digit (d : Z) : ascii :=
  match d with
  | 0 => "0" | 1 => "1" | 2 => "2" | 3 => "3" | 4 => "4" | 5 => "5"
  | 6 => "6" | 7 => "7" | 8 => "8" | 9 => "9" | 10 => "a" | 11 => "b"
  | 12 => "c" | 13 => "d" | 14 => "e" | _ => "f"
  end%char.

(** ['{:x}'.format(v)] for [0 <= v]: the hexadecimal digits of [v], most
    significant first, lower case. *)
Fixpoint hex_loop (fuel : nat) (v : Z) (acc : string) : string :=
  match fuel with
  | O => acc
  | S fuel' =>
      let acc' := String (hex_digit (v mod 16)) acc in
      if v / 16 =? 0 then acc' else hex_loop fuel' (v / 16) acc'
  end.

Definition format_x (v : Z) : string :=
  hex_loop (S (Z.to_nat (Z.log2 v))) v EmptyString.

(** ['{:02x}'.format(v)]: the same, padded with zeros on the left to a
    width of two. *)
Definition format_02x (v : Z) : string :=
  let s := format_x v in
  if (String.length s <? 2)%nat then "0" ++ s else s.

(** [range(start, stop, step)] for a positive step. *)
Definition py_range (start stop step : Z) : list Z :=
  map (fun i => start + step * Z.of_nat i)
      (seq 0 (Z.to_nat ((stop - start + step - 1) / step))).

(** [':'.join(['{:02x}'.format((node >> elements) & 0xff)
               for elements in range(0,2*6,2)][::-1])] *)
Definition mac_address (node : Z) : string :=
  String.concat ":"
    (rev (map (fun elements => format_02x (Z.land (Z.shiftr node elements) 255))
              (py_range 0 (2 * 6) 2))).

(** The rendering the specification describes: the six octets of the
    48-bit identifier, most significant first. *)
Definition octet (node : Z) (i : Z) : Z := Z.land (Z.shiftr node (8 * i)) 255.

Definition mac_address_spec (node : Z) : string :=
  String.concat ":" (map (fun i => format_02x (octet node i)) [5; 4; 3; 2; 1; 0]).

End Mac.

(** ** The host: queries, their outcomes and their effects *)

(** The queries [collect] issues against the host, in the vocabulary of the
    source: one constructor per library call. *)
Inductive query : Type :=
  | QPlatformSystem | QPlatformRelease | QPlatformVersion | QPlatformMachine
  | QPlatformProcessor | QPlatformArchitecture
  | QGethostname | QGethostbyname | QGetnode | QNetIfAddrs
  | QCpuCount (logical : bool) | QCpuFreq | QCpuPercent
  | QVirtualMemory | QDiskPartitions | QDiskUsage (mountpoint : string)
  | QPids | QProcessIter
  | QNow.

#[global] Instance query_eq_dec : EqDecision query.
Proof. solve_decision. Defined.

(** psutil's named tuples. *)
Record snicaddr : Type := mk_snicaddr
  { nic_family : Z; nic_address : string; nic_netmask : option string }.

Record scpufreq : Type := mk_scpufreq
  { freq_current : Q; freq_min : Q; freq_max : Q }.

Record svmem : Type := mk_svmem
  { vm_total : Z; vm_available : Z; vm_used : Z; vm_percent : Q }.

Record sdiskpart : Type := mk_sdiskpart
  { device : string; mountpoint : string; fstype : string }.

Record sdiskusage : Type := mk_sdiskusage
  { usage_total : Z; usage_used : Z; usage_free : Z; usage_percent : Q }.

(** An element of an interface's address list: a [snicaddr], or an object
    on which reading [address], [netmask] or [family] raises. *)
Inductive raw_addr : Type :=
  | Snic (a : snicaddr)
  | Malformed (e : exn).

(** [proc.info] of a process yielded by [process_iter]: psutil fills in
    [None] for an attribute it could not read. *)
Record proc_info : Type := mk_proc_info
  { info_pid : Z;
    info_name : option string;
    info_username : option string;
    info_memory_percent : option Q }.

Record OS : Type := mk_OS
  { platform_system : result string;
    platform_release : result string;
    platform_version : result string;
    platform_machine : result string;
    platform_processor : result string;
    platform_architecture : result (string * string);
    sys_version : string;
    socket_gethostname : result string;
    socket_gethostbyname : string -> result string;
    uuid_getnode : Z;
    net_if_addrs : result (list (string * list raw_addr));
    str_family : Z -> string;
    cpu_count : bool -> result (option Z);
    cpu_freq : result (option scpufreq);
    cpu_percent : result Q;
    virtual_memory : result svmem;
    disk_partitions : result (list sdiskpart);
    disk_usage : string -> result sdiskusage;
    pids : result (list Z);
    (* what reading [proc.info] gives for each process of the iteration *)
    process_iter : result (list (result proc_info));
    (* [datetime.isoformat] of an instant *)
    isoformat : Z -> string;
    (* how long a query takes *)
    duration : query -> N }.

(** The state threaded through a cycle: the wall clock and the queries
    issued so far, oldest first. *)
Record st : Type := mk_st { clock : Z; log : list query }.

Definition M (A : Type) : Type := st -> result A * st.

Definition ret {A} (a : A) : M A := fun s => (Ok a, s).

Definition bind {A B} (m : M A) (f : A -> M B) : M B :=
  fun s => match m s with
           | (Ok a, s') => f a s'
           | (Raise e, s') => (Raise e, s')
           end.

Definition raise {A} (e : exn) : M A := fun s => (Raise e, s).

Definition lift {A} (r : result A) : M A := fun s => (r, s).

(** [try: m except <classes accepted by catches>: h] *)
Definition try_except {A} (m : M A) (catches : exn -> bool) (h : exn -> M A) : M A :=
  fun s => match m s with
           | (Ok a, s') => (Ok a, s')
           | (Raise e, s') => if catches e then h e s' else (Raise e, s')
           end.

(** Issue query [q], whose outcome on this host is [r]. *)
Definition os_call {A} (o : OS) (q : query) (r : result A) : M A :=
  fun s => (r, {| clock := clock s + Z.of_N (duration o q); log := log s ++ [q] |}).

(** [datetime.now()] *)
Definition datetime_now (o : OS) : M Z :=
  fun s => (Ok (clock s),
            {| clock := clock s + Z.of_N (duration o QNow); log := log s ++ [QNow] |}).

Declare Scope monad_scope.
Delimit Scope monad_scope with monad.
Notation "x <- m ;; k" := (bind m (fun x => k))
  (at level 100, m at next level, right associativity) : monad_scope.
Local Open Scope monad_scope.

Definition value {A} (p : result A * st) : result A := fst p.

(** [except:] and [except Exception:] accept every exception of the model. *)
Definition any_exception (e : exn) : bool := true.

(** [except (psutil.NoSuchProcess, psutil.AccessDenied, psutil.ZombieProcess):] *)
Definition process_gone (e : exn) : bool :=
  match exn_cls e with
  | NoSuchProcess | AccessDenied | ZombieProcess => true
  | OtherException => false
  end.

(** ** The data model of [read_data.py] *)

Record NetworkAddress : Type := mk_NetworkAddress
  { address : string; netmask : option string; family : string }.

Record CPUFrequency : Type := mk_CPUFrequency
  { current : Q; min_frequency : Q; max_frequency_ : Q }.

Record ProcessInfo : Type := mk_ProcessInfo
  { pid : Z;
    name : option string;
    username : option string;
    memory_percent : option Q }.

Record DiskInfo : Type := mk_DiskInfo
  { disk_mountpoint : string;
    disk_filesystem : string;
    disk_total : Z;
    disk_used : Z;
    disk_free : Z;
    disk_percent : Q }.

Record PlatformData : Type := mk_PlatformData
  { system : string;
    release : string;
    version : string;
    machine : string;
    processor : string;
    architecture : string * string;
    python_version : string }.

Record NetworkData : Type := mk_NetworkData
  { hostname : string;
    ip_address : string;
    mac_address : string;
    network_interfaces : gmap string (list NetworkAddress) }.

Record CPUData : Type := mk_CPUData
  { physical_cores : option Z;
    total_cores : option Z;
    max_frequency : option CPUFrequency;
    current_usage : Q }.

Record MemoryData : Type := mk_MemoryData
  { mem_total : Z; mem_available : Z; mem_used : Z; mem_percent : Q }.

Record HardwareData : Type := mk_HardwareData
  { cpu : CPUData; memory : MemoryData; disk : gmap string DiskInfo }.

Record ProcessData : Type := mk_ProcessData
  { total_processes : Z; running_processes : list ProcessInfo }.

Record SystemData : Type := mk_SystemData
  { timestamp : string;
    platform : PlatformData;
    network : NetworkData;
    hardware : HardwareData;
    process : ProcessData }.

(** ** [SystemDataCollector] *)

(** The dictionary built from one address; reading the three attributes
    of a malformed object raises. *)
Definition addr_info (o : OS) (addr : raw_addr) : M NetworkAddress :=
  match addr with
  | Snic a => ret {| address := nic_address a;
                     netmask := nic_netmask a;
                     family := str_family o (nic_family a) |}
  | Malformed e => raise e
  end.

(** [for addr in addresses: ... interfaces[interface].append(addr_info)] *)
Fixpoint addresses_loop (o : OS) (interface : string) (addresses : list raw_addr)
    (interfaces : gmap string (list NetworkAddress))
    : M (gmap string (list NetworkAddress)) :=
  match addresses with
  | [] => ret interfaces
  | addr :: rest =>
      i <- addr_info o addr ;;
      addresses_loop o interface rest (alter (fun l => (l ++ [i])%list) interface interfaces)
  end.

(** [for interface, addresses in psutil.net_if_addrs().items(): ...] *)
Fixpoint interfaces_loop (o : OS) (items : list (string * list raw_addr))
    (interfaces : gmap string (list NetworkAddress))
    : M (gmap string (list NetworkAddress)) :=
  match items with
  | [] => ret interfaces
  | (interface, addresses) :: rest =>
      interfaces' <- addresses_loop o interface addresses (<[interface := []]> interfaces) ;;
      interfaces_loop o rest interfaces'
  end.

Definition get_network_interfaces (o : OS) : M (gmap string (list NetworkAddress)) :=
  items <- os_call o QNetIfAddrs (net_if_addrs o) ;;
  interfaces_loop o items ∅.

(** Reading [cpu_freq.current] when [psutil.cpu_freq()] returned [None]. *)
Definition attribute_error : exn :=
  mk_exn OtherException "'NoneType' object has no attribute 'current'".

Definition get_cpu_frequency (o : OS) : M (option CPUFrequency) :=
  try_except
    (cpu_freq <- os_call o QCpuFreq (cpu_freq o) ;;
     match cpu_freq with
     | Some f => ret (Some {| current := freq_current f;
                              min_frequency := freq_min f;
                              max_frequency_ := freq_max f |})
     | None => raise attribute_error
     end)
    any_exception
    (fun _ => ret None).

(** The entry stored for [partition] once its usage is known. *)
Definition disk_entry (partition : sdiskpart) (usage : sdiskusage) : DiskInfo :=
  {| disk_mountpoint := mountpoint partition;
     disk_filesystem := fstype partition;
     disk_total := usage_total usage;
     disk_used := usage_used usage;
     disk_free := usage_free usage;
     disk_percent := usage_percent usage |}.

(** [for partition in psutil.disk_partitions(): try: ... except: continue] *)
Fixpoint partitions_loop (o : OS) (partitions : list sdiskpart)
    (disks : gmap string DiskInfo) : M (gmap string DiskInfo) :=
  match partitions with
  | [] => ret disks
  | partition :: rest =>
      disks' <- try_except
                  (usage <- os_call o (QDiskUsage (mountpoint partition))
                                    (disk_usage o (mountpoint partition)) ;;
                   ret (<[device partition := disk_entry partition usage]> disks))
                  any_exception
                  (fun _ => ret disks) ;;
      partitions_loop o rest disks'
  end.

Definition get_disk_info (o : OS) : M (gmap string DiskInfo) :=
  partitions <- os_call o QDiskPartitions (disk_partitions o) ;;
  partitions_loop o partitions ∅.

(** The dictionary appended for one process: the four entries of
    [proc.info], unchanged. *)
Definition process_entry (info : proc_info) : ProcessInfo :=
  {| pid := info_pid info;
     name := info_name info;
     username := info_username info;
     memory_percent := info_memory_percent info |}.

(** [for proc in psutil.process_iter([...]): try: ... except (...): pass] *)
Fixpoint processes_loop (procs : list (result proc_info))
    (processes : list ProcessInfo) : M (list ProcessInfo) :=
  match procs with
  | [] => ret processes
  | proc :: rest =>
      processes' <- try_except
                      (info <- lift proc ;;
                       ret (processes ++ [process_entry info])%list)
                      process_gone
                      (fun _ => ret processes) ;;
      processes_loop rest processes'
  end.

Definition get_running_processes (o : OS) : M (list ProcessInfo) :=
  procs <- os_call o QProcessIter (process_iter o) ;;
  processes_loop procs [].

(** A list comprehension whose element expression has effects. *)
Fixpoint comprehension {A B} (f : A -> M B) (l : list A) : M (list B) :=
  match l with
  | [] => ret []
  | x :: rest => y <- f x ;; ys <- comprehension f rest ;; ret (y :: ys)
  end.

Definition platform_data (o : OS) : M PlatformData :=
  system_ <- os_call o QPlatformSystem (platform_system o) ;;
  release_ <- os_call o QPlatformRelease (platform_release o) ;;
  version_ <- os_call o QPlatformVersion (platform_version o) ;;
  machine_ <- os_call o QPlatformMachine (platform_machine o) ;;
  processor_ <- os_call o QPlatformProcessor (platform_processor o) ;;
  architecture_ <- os_call o QPlatformArchitecture (platform_architecture o) ;;
  ret {| system := system_; release := release_; version := version_;
         machine := machine_; processor := processor_;
         architecture := architecture_; python_version := sys_version o |}.

Definition network_data (o : OS) : M NetworkData :=
  hostname_ <- os_call o QGethostname (socket_gethostname o) ;;
  h <- os_call o QGethostname (socket_gethostname o) ;;
  ip_address_ <- os_call o QGethostbyname (socket_gethostbyname o h) ;;
  octets <- comprehension
              (fun elements =>
                 node <- os_call o QGetnode (Ok (uuid_getnode o)) ;;
                 ret (Mac.format_02x (Z.land (Z.shiftr node elements) 255)))
              (Mac.py_range 0 (2 * 6) 2) ;;
  interfaces <- get_network_interfaces o ;;
  ret {| hostname := hostname_; ip_address := ip_address_;
         mac_address := String.concat ":" (rev octets);
         network_interfaces := interfaces |}.

Definition cpu_data (o : OS) : M CPUData :=
  physical <- os_call o (QCpuCount false) (cpu_count o false) ;;
  total <- os_call o (QCpuCount true) (cpu_count o true) ;;
  frequency <- get_cpu_frequency o ;;
  usage <- os_call o QCpuPercent (cpu_percent o) ;;
  ret {| physical_cores := physical; total_cores := total;
         max_frequency := frequency; current_usage := usage |}.

Definition memory_data (o : OS) : M MemoryData :=
  memory_ <- os_call o QVirtualMemory (virtual_memory o) ;;
  ret {| mem_total := vm_total memory_; mem_available := vm_available memory_;
         mem_used := vm_used memory_; mem_percent := vm_percent memory_ |}.

Definition hardware_data (o : OS) : M HardwareData :=
  cpu_ <- cpu_data o ;;
  memory_ <- memory_data o ;;
  disks <- get_disk_info o ;;
  ret {| cpu := cpu_; memory := memory_; disk := disks |}.

Definition process_data (o : OS) : M ProcessData :=
  all_pids <- os_call o QPids (pids o) ;;
  processes <- get_running_processes o ;;
  ret {| total_processes := Z.of_nat (length all_pids);
         running_processes := processes |}.

(** [SystemDataCollector.collect]: the four sub-records in the order of
    the source, then the [SystemData] constructor, whose first argument
    reads the clock. *)
Definition collect (o : OS) : M SystemData :=
  platform_ <- platform_data o ;;
  network_ <- network_data o ;;
  hardware_ <- hardware_data o ;;
  process_ <- process_data o ;;
  now <- datetime_now o ;;
  ret {| timestamp := isoformat o now; platform := platform_;
         network := network_; hardware := hardware_; process := process_ |}.

(** ** [SystemDataManager] *)

(** The values [dataclasses.asdict] produces: dictionaries with string
    keys in insertion order, lists, tuples and scalars. *)
#[local] Unset Elimination Schemes.
Inductive pyval : Type :=
  | PNone
  | PInt (n : Z)
  | PFloat (x : Q)
  | PStr (s : string)
  | PTuple (items : list pyval)
  | PList (items : list pyval)
  | PDict (entries : list (string * pyval)).
#[local] Set Elimination Schemes.

Definition of_option {A} (f : A -> pyval) (x : option A) : pyval :=
  match x with Some a => f a | None => PNone end.

(** [d[k]] on a dictionary; [None] stands for the [KeyError]. *)
Fixpoint assoc (k : string) (entries : list (string * pyval)) : option pyval :=
  match entries with
  | [] => None
  | (k', v) :: rest => if String.eqb k k' then Some v else assoc k rest
  end.

Definition getitem (v : pyval) (k : string) : option pyval :=
  match v with PDict entries => assoc k entries | _ => None end.

Definition keys (v : pyval) : list string :=
  match v with PDict entries => map fst entries | _ => [] end.

Definition dict_NetworkAddress (a : NetworkAddress) : pyval :=
  PDict [("address", PStr (address a));
         ("netmask", of_option PStr (netmask a));
         ("family", PStr (family a))].

Definition dict_CPUFrequency (f : CPUFrequency) : pyval :=
  PDict [("current", PFloat (current f));
         ("min", PFloat (min_frequency f));
         ("max", PFloat (max_frequency_ f))].

Definition dict_ProcessInfo (p : ProcessInfo) : pyval :=
  PDict [("pid", PInt (pid p));
         ("name", of_option PStr (name p));
         ("username", of_option PStr (username p));
         ("memory_percent", of_option PFloat (memory_percent p))].

Definition dict_DiskInfo (d : DiskInfo) : pyval :=
  PDict [("mountpoint", PStr (disk_mountpoint d));
         ("filesystem", PStr (disk_filesystem d));
         ("total", PInt (disk_total d));
         ("used", PInt (disk_used d));
         ("free", PInt (disk_free d));
         ("percent", PFloat (disk_percent d))].

Definition dict_PlatformData (p : PlatformData) : pyval :=
  PDict [("system", PStr (system p));
         ("release", PStr (release p));
         ("version", PStr (version p));
         ("machine", PStr (machine p));
         ("processor", PStr (processor p));
         ("architecture", PTuple [PStr (fst (architecture p)); PStr (snd (architecture p))]);
         ("python_version", PStr (python_version p))].

(** A [gmap] turned into a dictionary; the order of its entries is the
    map's own, not the insertion order of the source. *)
Definition dict_of_map {A} (f : A -> pyval) (m : gmap string A) : pyval :=
  PDict (map (fun kv => (fst kv, f (snd kv))) (map_to_list m)).

Definition dict_NetworkData (n : NetworkData) : pyval :=
  PDict [("hostname", PStr (hostname n));
         ("ip_address", PStr (ip_address n));
         ("mac_address", PStr (mac_address n));
         ("network_interfaces",
          dict_of_map (fun l => PList (map dict_NetworkAddress l)) (network_interfaces n))].

Definition dict_CPUData (c : CPUData) : pyval :=
  PDict [("physical_cores", of_option PInt (physical_cores c));
         ("total_cores", of_option PInt (total_cores c));
         ("max_frequency", of_option dict_CPUFrequency (max_frequency c));
         ("current_usage", PFloat (current_usage c))].

Definition dict_MemoryData (m : MemoryData) : pyval :=
  PDict [("total", PInt (mem_total m));
         ("available", PInt (mem_available m));
         ("used", PInt (mem_used m));
         ("percent", PFloat (mem_percent m))].

Definition dict_HardwareData (h : HardwareData) : pyval :=
  PDict [("cpu", dict_CPUData (cpu h));
         ("memory", dict_MemoryData (memory h));
         ("disk", dict_of_map dict_DiskInfo (disk h))].

Definition dict_ProcessData (p : ProcessData) : pyval :=
  PDict [("total_processes", PInt (total_processes p));
         ("running_processes", PList (map dict_ProcessInfo (running_processes p)))].

(** [asdict(system_data)] *)
Definition asdict (d : SystemData) : pyval :=
  PDict [("timestamp", PStr (timestamp d));
         ("platform", dict_PlatformData (platform d));
         ("network", dict_NetworkData (network d));
         ("hardware", dict_HardwareData (hardware d));
         ("process", dict_ProcessData (process d))].

Definition error_dict (e : exn) : pyval :=
  PDict [("error", PStr ("Failed to collect system data: " ++ exn_msg e))].

(** [SystemDataManager.read_system_data] *)
Definition read_system_data (o : OS) : M pyval :=
  try_except
    (system_data <- collect o ;; ret (asdict system_data))
    any_exception
    (fun e => ret (error_dict e)).

(** ** The light display: how a process entry's user is rendered *)

(** [str(process["username"] or '')] in [display_data_light.py] *)
Definition light_username (p : ProcessInfo) : string :=
  match username p with
  | Some u => u
  | None => EmptyString
  end.

(** ** The refresh logic of [SystemMonitorApp] *)

Module Display.

(** The part of the application object the refresh logic reads and
    writes. [loading] counts the mounted loading indicators and
    [last_update] is the time stamp shown by the [#timestamp] label. *)
Record App : Type := mk_App
  { auto_refresh : bool;
    data : option pyval;
    last_update : option string;
    notifications : list string;
    loading : nat;
    interval_set : bool }.

(** [__init__] and [compose]: [auto_refresh = reactive(True)],
    [self.data = None], ["Last Update: Never"]. *)
Definition new_app : App :=
  {| auto_refresh := true; data := None; last_update := None;
     notifications := []; loading := 0%nat; interval_set := false |}.

Definition notify (msg : string) (a : App) : App :=
  {| auto_refresh := auto_refresh a; data := data a; last_update := last_update a;
     notifications := (notifications a ++ [msg])%list;
     loading := loading a; interval_set := interval_set a |}.

Definition set_data (v : pyval) (a : App) : App :=
  {| auto_refresh := auto_refresh a; data := Some v; last_update := last_update a;
     notifications := notifications a;
     loading := loading a; interval_set := interval_set a |}.

Definition set_last_update (ts : string) (a : App) : App :=
  {| auto_refresh := auto_refresh a; data := data a; last_update := Some ts;
     notifications := notifications a;
     loading := loading a; interval_set := interval_set a |}.

Definition set_loading (n : nat) (a : App) : App :=
  {| auto_refresh := auto_refresh a; data := data a; last_update := last_update a;
     notifications := notifications a;
     loading := n; interval_set := interval_set a |}.

Definition set_interval (a : App) : App :=
  {| auto_refresh := auto_refresh a; data := data a; last_update := last_update a;
     notifications := notifications a;
     loading := loading a; interval_set := true |}.

Definition set_auto_refresh (b : bool) (a : App) : App :=
  {| auto_refresh := b; data := data a; last_update := last_update a;
     notifications := notifications a;
     loading := loading a; interval_set := interval_set a |}.

(** What reaches the application: the mount event, a tick of the
    interval timer, the key [r] and the key [t]. *)
Inductive trigger : Type :=
  | Mount
  | TimerFire
  | KeyRefresh
  | KeyToggle.

(** The statements of the handlers, as far as the refresh logic
    distinguishes them. None of them suspends the coroutine: the source
    awaits nothing inside [refresh_data]. *)
Inductive stmt : Type :=
  | MountLoading        (* self.mount(loading) *)
  | CallCollect         (* entering self.manager.read_system_data() *)
  | ReturnCollect       (* its return, and the rest of the try and except *)
  | RemoveLoading       (* finally: loading.remove() *)
  | SetInterval         (* self.set_interval(REFRESH_INTERVAL, self.refresh_data) *)
  | Notify (msg : string)
  | ToggleAutoRefresh.  (* the body of action_toggle_refresh *)

(** [refresh_data]: the guard on [auto_refresh], then one cycle. *)
Definition refresh_data (a : App) : list stmt :=
  if negb (auto_refresh a) then []
  else [MountLoading; CallCollect; ReturnCollect; RemoveLoading].

Definition on_mount (a : App) : list stmt :=
  (refresh_data a
     ++ [SetInterval;
         Notify "Press 'q' to quit, 'r' to refresh, 't' to toggle auto-refresh"])%list.

Definition action_refresh (a : App) : list stmt := refresh_data a.

Definition action_toggle_refresh (a : App) : list stmt := [ToggleAutoRefresh].

(** The handler the framework runs for a trigger: the timer was given
    [refresh_data] itself, the key bindings name the two actions. *)
Definition handler (t : trigger) (a : App) : list stmt :=
  match t with
  | Mount => on_mount a
  | TimerFire => refresh_data a
  | KeyRefresh => action_refresh a
  | KeyToggle => action_toggle_refresh a
  end.

(** The try body after [self.data] is assigned: the process table reads
    [data["process"]["running_processes"]], the label reads
    [data["timestamp"]]; a missing key raises [KeyError], which the
    except clause turns into a notification. *)
Definition after_collect (v : pyval) (a : App) : App :=
  let a := set_data v a in
  match getitem v "process" with
  | None => notify "Error refreshing data: 'process'" a
  | Some p =>
      match getitem p "running_processes" with
      | None => notify "Error refreshing data: 'running_processes'" a
      | Some _ =>
          match getitem v "timestamp" with
          | Some (PStr ts) => set_last_update ts a
          | _ => notify "Error refreshing data: 'timestamp'" a
          end
      end
  end.

(** The state of the running application: the object, the host's clock
    and query log, the rest of the handler being run, the triggers
    delivered and not yet handled, the number of [read_system_data]
    calls entered and not yet returned, and the number of completed
    cycles. *)
Record sched : Type := mk_sched
  { app : App;
    host : st;
    current : list stmt;
    pending : list trigger;
    in_flight : nat;
    cycles : nat }.

Definition initial (s : st) : sched :=
  {| app := new_app; host := s; current := []; pending := [Mount];
     in_flight := 0%nat; cycles := 0%nat |}.

Definition exec (o : OS) (c : stmt) (rest : list stmt) (x : sched) : sched :=
  match c with
  | MountLoading =>
      mk_sched (set_loading (S (loading (app x))) (app x)) (host x) rest
               (pending x) (in_flight x) (cycles x)
  | CallCollect =>
      mk_sched (app x) (host x) rest (pending x) (S (in_flight x)) (cycles x)
  | ReturnCollect =>
      let (r, s') := read_system_data o (host x) in
      let a := match r with
               | Ok v => after_collect v (app x)
               | Raise e => notify ("Error refreshing data: " ++ exn_msg e) (app x)
               end in
      mk_sched a s' rest (pending x) (Nat.pred (in_flight x)) (S (cycles x))
  | RemoveLoading =>
      mk_sched (set_loading (Nat.pred (loading (app x))) (app x)) (host x) rest
               (pending x) (in_flight x) (cycles x)
  | SetInterval =>
      mk_sched (set_interval (app x)) (host x) rest (pending x) (in_flight x) (cycles x)
  | Notify msg =>
      mk_sched (notify msg (app x)) (host x) rest (pending x) (in_flight x) (cycles x)
  | ToggleAutoRefresh =>
      let b := negb (auto_refresh (app x)) in
      let msg := "Auto-refresh " ++ (if b then "enabled" else "disabled") in
      mk_sched (notify msg (set_auto_refresh b (app x))) (host x) rest
               (pending x) (in_flight x) (cycles x)
  end.

(** What happens next: a trigger is delivered (a key press or a tick,
    which can happen at any time, also while a handler runs; there are
    no ticks before [set_interval]), or the event loop goes on: the next
    statement of the running handler, or, when none is running, the
    handler of the oldest pending trigger. *)
Inductive input : Type :=
  | Arrive (t : trigger)
  | Run.

Definition deliver (t : trigger) (x : sched) : sched :=
  mk_sched (app x) (host x) (current x) (pending x ++ [t])%list
           (in_flight x) (cycles x).

Definition step (o : OS) (i : input) (x : sched) : sched :=
  match i with
  | Arrive TimerFire => if interval_set (app x) then deliver TimerFire x else x
  | Arrive t => deliver t x
  | Run =>
      match current x with
      | c :: rest => exec o c rest x
      | [] =>
          match pending x with
          | t :: queue =>
              mk_sched (app x) (host x) (handler t (app x)) queue
                       (in_flight x) (cycles x)
          | [] => x
          end
      end
  end.

Definition run (o : OS) (inputs : list input) (x : sched) : sched :=
  fold_left (fun x i => step o i x) inputs x.

(** The handler [body] keeps at most one call in flight when started
    with [n] calls in flight, and ends with none. *)
Fixpoint serial (n : nat) (body : list stmt) : bool :=
  match body with
  | [] => Nat.eqb n 0
  | CallCollect :: rest => Nat.eqb n 0 && serial 1 rest
  | ReturnCollect :: rest => Nat.eqb n 1 && serial 0 rest
  | _ :: rest => serial n rest
  end.

(** The state is between two handlers or inside one that keeps the calls
    serial. *)
Definition inv (x : sched) : Prop := serial (in_flight x) (current x) = true.

End Display.

(** ** Concrete hosts, for examples *)

Definition example_proc (p : Z) (n : string) (u : option string) : result proc_info :=
  Ok {| info_pid := p; info_name := Some n; info_username := u;
        info_memory_percent := Some (1 # 2)%Q |}.

Definition example_usage : sdiskusage :=
  {| usage_total := 1000; usage_used := 550; usage_free := 450;
     usage_percent := (55 # 1)%Q |}.

Definition example_os : OS :=
  {| platform_system := Ok "Linux";
     platform_release := Ok "6.1";
     platform_version := Ok "#1 SMP";
     platform_machine := Ok "x86_64";
     platform_processor := Ok "x86_64";
     platform_architecture := Ok ("64bit", "ELF");
     sys_version := "3.11.4 (main)";
     socket_gethostname := Ok "host";
     socket_gethostbyname := fun _ => Ok "127.0.1.1";
     uuid_getnode := 0x001122334455;
     net_if_addrs :=
       Ok [("lo", [Snic {| nic_family := 2; nic_address := "127.0.0.1";
                           nic_netmask := Some "255.0.0.0" |}])];
     str_family := fun _ => "AddressFamily.AF_INET";
     cpu_count := fun logical => Ok (Some (if logical then 8 else 4));
     cpu_freq := Ok None;
     cpu_percent := Ok (42 # 1)%Q;
     virtual_memory := Ok {| vm_total := 16000000000; vm_available := 8000000000;
                             vm_used := 8000000000; vm_percent := (50 # 1)%Q |};
     disk_partitions := Ok [ {| device := "/dev/sda1"; mountpoint := "/";
                                fstype := "ext4" |} ];
     disk_usage := fun _ => Ok example_usage;
     pids := Ok [1; 2; 7];
     process_iter := Ok [example_proc 1 "init" (Some "root");
                         Raise (mk_exn NoSuchProcess "process no longer exists");
                         example_proc 7 "kthread" None];
     isoformat := fun t => pretty t;
     duration := fun q => match q with QCpuPercent => 1%N | _ => 0%N end |}.

Definition example_st : st := {| clock := 100; log := [] |}.

(** [o] with another enumeration of partitions and other answers to the
    usage queries. *)
Definition with_disks (partitions : result (list sdiskpart))
    (usage : string -> result sdiskusage) (o : OS) : OS :=
  {| platform_system := platform_system o;
     platform_release := platform_release o;
     platform_version := platform_version o;
     platform_machine := platform_machine o;
     platform_processor := platform_processor o;
     platform_architecture := platform_architecture o;
     sys_version := sys_version o;
     socket_gethostname := socket_gethostname o;
     socket_gethostbyname := socket_gethostbyname o;
     uuid_getnode := uuid_getnode o;
     net_if_addrs := net_if_addrs o;
     str_family := str_family o;
     cpu_count := cpu_count o;
     cpu_freq := cpu_freq o;
     cpu_percent := cpu_percent o;
     virtual_memory := virtual_memory o;
     disk_partitions := partitions;
     disk_usage := usage;
     pids := pids o;
     process_iter := process_iter o;
     isoformat := isoformat o;
     duration := duration o |}.

Definition sda1 : sdiskpart := {| device := "/dev/sda1"; mountpoint := "/"; fstype := "ext4" |}.
Definition sdb1 : sdiskpart := {| device := "/dev/sdb1"; mountpoint := "/mnt"; fstype := "vfat" |}.


Definition permission_denied : exn := mk_exn OtherException "[Errno 13] Permission denied".


(** The same, with [/mnt] unreadable. *)
Definition os_sdb1_unreadable : OS :=
  with_disks (Ok [sda1; sdb1])
    (fun m => if String.eqb m "/mnt" then Raise permission_denied else Ok example_usage)
    example_os.


(** [o] with another interface enumeration. *)
Definition with_interfaces (items : result (list (string * list raw_addr))) (o : OS) : OS :=
  {| platform_system := platform_system o;
     platform_release := platform_release o;
     platform_version := platform_version o;
     platform_machine := platform_machine o;
     platform_processor := platform_processor o;
     platform_architecture := platform_architecture o;
     sys_version := sys_version o;
     socket_gethostname := socket_gethostname o;
     socket_gethostbyname := socket_gethostbyname o;
     uuid_getnode := uuid_getnode o;
     net_if_addrs := items;
     str_family := str_family o;
     cpu_count := cpu_count o;
     cpu_freq := cpu_freq o;
     cpu_percent := cpu_percent o;
     virtual_memory := virtual_memory o;
     disk_partitions := disk_partitions o;
     disk_usage := disk_usage o;
     pids := pids o;
     process_iter := process_iter o;
     isoformat := isoformat o;
     duration := duration o |}.

Definition loopback : raw_addr :=
  Snic {| nic_family := 2; nic_address := "127.0.0.1"; nic_netmask := Some "255.0.0.0" |}.

Definition wlan_addr : raw_addr :=
  Snic {| nic_family := 2; nic_address := "192.168.0.7"; nic_netmask := Some "255.255.255.0" |}.

Definition no_attribute : exn :=
  mk_exn OtherException "'NoneType' object has no attribute 'address'".

(** Three interfaces, the second with an entry that cannot be read. *)
Definition os_malformed_interface : OS :=
  with_interfaces
    (Ok [("lo", [loopback]); ("eth0", [Malformed no_attribute]); ("wlan0", [wlan_addr])])
    example_os.

(** Two interfaces, all entries well-formed. *)
Definition os_two_interfaces : OS :=
  with_interfaces (Ok [("lo", [loopback]); ("wlan0", [wlan_addr])]) example_os.

(** The example host, with a host name that does not resolve. *)
Definition os_no_address : OS :=
  {| platform_system := platform_system example_os;
     platform_release := platform_release example_os;
     platform_version := platform_version example_os;
     platform_machine := platform_machine example_os;
     platform_processor := platform_processor example_os;
     platform_architecture := platform_architecture example_os;
     sys_version := sys_version example_os;
     socket_gethostname := socket_gethostname example_os;
     socket_gethostbyname :=
       fun _ => Raise (mk_exn OtherException "[Errno -2] Name or service not known");
     uuid_getnode := uuid_getnode example_os;
     net_if_addrs := net_if_addrs example_os;
     str_family := str_family example_os;
     cpu_count := cpu_count example_os;
     cpu_freq := cpu_freq example_os;
     cpu_percent := cpu_percent example_os;
     virtual_memory := virtual_memory example_os;
     disk_partitions := disk_partitions example_os;
     disk_usage := disk_usage example_os;
     pids := pids example_os;
     process_iter := process_iter example_os;
     isoformat := isoformat example_os;
     duration := duration example_os |}.

(** ** What the loops compute *)

(** The map [get_disk_info] ends with, as a fold over the partitions. *)
Fixpoint disks_after (o : OS) (partitions : list sdiskpart)
    (disks : gmap string DiskInfo) : gmap string DiskInfo :=
  match partitions with
  | [] => disks
  | partition :: rest =>
      disks_after o rest
        match disk_usage o (mountpoint partition) with
        | Ok usage => <[device partition := disk_entry partition usage]> disks
        | Raise _ => disks
        end
  end.

(** The dictionary of a well-formed address. *)
Definition snic_info (o : OS) (a : snicaddr) : NetworkAddress :=
  {| address := nic_address a; netmask := nic_netmask a;
     family := str_family o (nic_family a) |}.

(** The address list built for one interface, or the exception of its
    first malformed entry. *)
Fixpoint addresses_of (o : OS) (addresses : list raw_addr) : result (list NetworkAddress) :=
  match addresses with
  | [] => Ok []
  | Snic a :: rest =>
      match addresses_of o rest with
      | Ok l => Ok (snic_info o a :: l)
      | Raise e => Raise e
      end
  | Malformed e :: _ => Raise e
  end.

(** The map [get_network_interfaces] ends with, as a fold over the
    enumeration. *)
Fixpoint interfaces_after (o : OS) (items : list (string * list raw_addr))
    (interfaces : gmap string (list NetworkAddress))
    : result (gmap string (list NetworkAddress)) :=
  match items with
  | [] => Ok interfaces
  | (interface, addresses) :: rest =>
      match addresses_of o addresses with
      | Ok l => interfaces_after o rest (<[interface := l]> interfaces)
      | Raise e => Raise e
      end
  end.

(** The first malformed entry of an address list and of an enumeration,
    if there is one. *)
Fixpoint first_malformed (addresses : list raw_addr) : option exn :=
  match addresses with
  | [] => None
  | Snic _ :: rest => first_malformed rest
  | Malformed e :: _ => Some e
  end.

Fixpoint malformed_entry (items : list (string * list raw_addr)) : option exn :=
  match items with
  | [] => None
  | (_, addresses) :: rest =>
      match first_malformed addresses with
      | Some e => Some e
      | None => malformed_entry rest
      end
  end.

(** The entries of the processes whose [info] could be read. *)
Fixpoint entries (procs : list (result proc_info)) : list ProcessInfo :=
  match procs with
  | [] => []
  | Ok info :: rest => process_entry info :: entries rest
  | Raise _ :: rest => entries rest
  end.

(** The first exception of the iteration that the except clause of
    [get_running_processes] does not accept. *)
Fixpoint fatal (procs : list (result proc_info)) : option exn :=
  match procs with
  | [] => None
  | Ok _ :: rest => fatal rest
  | Raise e :: rest => if process_gone e then fatal rest else Some e
  end.

(** ** Time and order of the queries *)

(** The time the queries [l] take on host [o]. *)
Definition elapsed (o : OS) (l : list query) : Z :=
  foldr (fun q t => Z.of_N (duration o q) + t) 0 l.

(** [m] does not read the clock: whatever its outcome, it appends to the
    log a list [l] of queries without [QNow], the clock advances by the
    time they take, and when it returns normally every query of [qs] is
    among them. *)
Definition traced {A} (o : OS) (qs : list query) (m : M A) : Prop :=
  forall s r s', m s = (r, s') ->
    exists l, log s' = (log s ++ l)%list /\
              (QNow ∉ l) /\
              clock s' = clock s + elapsed o l /\
              (is_ok r = true -> forall q, q ∈ qs -> q ∈ l).

(** Queries of the four categories (platform, network, hardware,
    process), each issued by every cycle that returns normally. *)
Definition collector_queries : list query :=
  [QPlatformSystem; QGethostname; QNetIfAddrs; QCpuCount false; QCpuPercent;
   QVirtualMemory; QDiskPartitions; QPids; QProcessIter].

(** ** The shape of what the manager returns *)

(** A dictionary with the five keys of [SystemData], a string under
    [timestamp] and, under each of the other four, a dictionary with the
    keys of that sub-record. *)
Definition structurally_complete (v : pyval) : Prop :=
  keys v = ["timestamp"; "platform"; "network"; "hardware"; "process"] /\
  exists ts p n h pr,
    getitem v "timestamp" = Some (PStr ts) /\
    getitem v "platform" = Some p /\
    keys p = ["system"; "release"; "version"; "machine"; "processor";
              "architecture"; "python_version"] /\
    getitem v "network" = Some n /\
    keys n = ["hostname"; "ip_address"; "mac_address"; "network_interfaces"] /\
    getitem v "hardware" = Some h /\
    keys h = ["cpu"; "memory"; "disk"] /\
    getitem v "process" = Some pr /\
    keys pr = ["total_processes"; "running_processes"].

(** The failure descriptor: a dictionary with the single key [error]. *)
Definition failure_descriptor (v : pyval) : Prop :=
  exists cause, v = PDict [("error", PStr ("Failed to collect system data: " ++ cause))].

(** ** What a whole cycle depends on *)

(** The state after query [q], and after the queries [qs] in turn. *)
Definition tick (o : OS) (q : query) (s : st) : st :=
  {| clock := clock s + Z.of_N (duration o q); log := (log s ++ [q])%list |}.

Definition ticks (o : OS) (qs : list query) (s : st) : st :=
  fold_left (fun s q => tick o q s) qs s.

(** What [get_cpu_frequency] returns on host [o]. *)
Definition frequency_of (o : OS) : option CPUFrequency :=
  match cpu_freq o with
  | Ok (Some f) => Some {| current := freq_current f;
                           min_frequency := freq_min f;
                           max_frequency_ := freq_max f |}
  | _ => None
  end.

(** The queries whose failure ends a cycle: all of them answer, every
    interface entry can be read, and no process of the iteration raises
    an exception outside the three accepted classes. [cpu_freq] and
    [disk_usage] are not among them. *)
Definition collectable (o : OS) : bool :=
  is_ok (platform_system o) && is_ok (platform_release o) &&
  is_ok (platform_version o) && is_ok (platform_machine o) &&
  is_ok (platform_processor o) && is_ok (platform_architecture o) &&
  match socket_gethostname o with
  | Ok h => is_ok (socket_gethostbyname o h)
  | Raise _ => false
  end &&
  match net_if_addrs o with
  | Ok items => is_ok (interfaces_after o items ∅)
  | Raise _ => false
  end &&
  is_ok (cpu_count o false) && is_ok (cpu_count o true) &&
  is_ok (cpu_percent o) && is_ok (virtual_memory o) &&
  is_ok (disk_partitions o) && is_ok (pids o) &&
  match process_iter o with
  | Ok procs => match fatal procs with None => true | Some _ => false end
  | Raise _ => false
  end.

(** [o] with other answers to [cpu_freq] and [disk_usage]. *)
Definition with_optional (freq : result (option scpufreq))
    (usage : string -> result sdiskusage) (o : OS) : OS :=
  {| platform_system := platform_system o;
     platform_release := platform_release o;
     platform_version := platform_version o;
     platform_machine := platform_machine o;
     platform_processor := platform_processor o;
     platform_architecture := platform_architecture o;
     sys_version := sys_version o;
     socket_gethostname := socket_gethostname o;
     socket_gethostbyname := socket_gethostbyname o;
     uuid_getnode := uuid_getnode o;
     net_if_addrs := net_if_addrs o;
     str_family := str_family o;
     cpu_count := cpu_count o;
     cpu_freq := freq;
     cpu_percent := cpu_percent o;
     virtual_memory := virtual_memory o;
     disk_partitions := disk_partitions o;
     disk_usage := usage;
     pids := pids o;
     process_iter := process_iter o;
     isoformat := isoformat o;
     duration := duration o |}.

(** The queries of a cycle that returns normally on a host with the
    partitions [ps], in the order they are issued, up to the reading of
    the clock. *)
Definition cycle_queries (ps : list sdiskpart) : list query :=
  ([QPlatformSystem; QPlatformRelease; QPlatformVersion; QPlatformMachine;
    QPlatformProcessor; QPlatformArchitecture;
    QGethostname; QGethostname; QGethostbyname;
    QGetnode; QGetnode; QGetnode; QGetnode; QGetnode; QGetnode;
    QNetIfAddrs;
    QCpuCount false; QCpuCount true; QCpuFreq; QCpuPercent;
    QVirtualMemory; QDiskPartitions]
   ++ map (fun p => QDiskUsage (mountpoint p)) ps
   ++ [QPids; QProcessIter])%list.

(** The exception of the first query of a cycle that fails, in the order
    the queries are issued, if one does. *)
Definition first_error {A} (r : result A) (k : option exn) : option exn :=
  match r with Ok _ => k | Raise e => Some e end.


(** [o] with another outcome of the process iteration. *)
Definition with_processes (procs : result (list (result proc_info))) (o : OS) : OS :=
  {| platform_system := platform_system o;
     platform_release := platform_release o;
     platform_version := platform_version o;
     platform_machine := platform_machine o;
     platform_processor := platform_processor o;
     platform_architecture := platform_architecture o;
     sys_version := sys_version o;
     socket_gethostname := socket_gethostname o;
     socket_gethostbyname := socket_gethostbyname o;
     uuid_getnode := uuid_getnode o;
     net_if_addrs := net_if_addrs o;
     str_family := str_family o;
     cpu_count := cpu_count o;
     cpu_freq := cpu_freq o;
     cpu_percent := cpu_percent o;
     virtual_memory := virtual_memory o;
     disk_partitions := disk_partitions o;
     disk_usage := disk_usage o;
     pids := pids o;
     process_iter := procs;
     isoformat := isoformat o;
     duration := duration o |}.

Definition runtime_error : exn := mk_exn OtherException "unexpected failure".

(** ** The shape of a rendered address *)

Definition is_lower_hex (c : ascii) : bool :=
  existsb (Ascii.eqb c) (list_ascii_of_string "0123456789abcdef").

(** Two lower-case hexadecimal digits. *)
Definition octet_text (t : string) : bool :=
  match t with
  | String a (String b EmptyString) => is_lower_hex a && is_lower_hex b
  | _ => false
  end.

(** Seventeen characters, a colon at every third place and lower-case
    hexadecimal digits elsewhere. *)
Definition mac_shape (t : string) : bool :=
  let l := list_ascii_of_string t in
  Nat.eqb (length l) 17 &&
  forallb (fun ic => if Nat.eqb (fst ic mod 3) 2
                     then Ascii.eqb (snd ic) ":"
                     else is_lower_hex (snd ic))
          (combine (seq 0 17) l).

(** ** The loading indicator and the data of the application *)

Module Indicator.
Import Display.

(** Started with [n] indicators mounted, the handler [body] removes only
    indicators that are mounted and leaves none behind. *)
Fixpoint indicator_ok (n : nat) (body : list stmt) : bool :=
  match body with
  | [] => Nat.eqb n 0
  | MountLoading :: rest => indicator_ok (S n) rest
  | RemoveLoading :: rest =>
      match n with
      | O => false
      | S m => indicator_ok m rest
      end
  | _ :: rest => indicator_ok n rest
  end.

Definition indicator_inv (x : sched) : Prop :=
  indicator_ok (loading (app x)) (current x) = true.


(** A tick is pending only when the interval timer is armed. *)
Definition timer_inv (x : sched) : Prop :=
  TimerFire ∈ pending x -> interval_set (app x) = true.

(** The rest of a handler returns from [read_system_data] before it arms
    the timer or toggles auto-refresh. *)
Fixpoint cycle_first (body : list stmt) : bool :=
  match body with
  | [] => false
  | ReturnCollect :: _ => true
  | SetInterval :: _ => false
  | ToggleAutoRefresh :: _ => false
  | _ :: rest => cycle_first rest
  end.

(** Before the first cycle has completed: the mount event is the next
    thing to handle and auto-refresh is still on, or [on_mount] is
    running and has not reached the return of its refresh. *)
Definition before_first_cycle (x : sched) : bool :=
  match current x with
  | [] => match pending x with
          | Mount :: _ => auto_refresh (app x)
          | _ => false
          end
  | body => cycle_first body
  end.

Definition mount_inv (x : sched) : Prop :=
  (1 <= cycles x)%nat \/
  (interval_set (app x) = false /\ before_first_cycle x = true).

End Indicator.

(** ** One frame of the light display ([display_data_light.py]) *)

Module Light.

(** What one [print] of the loop shows: the screen line and the four
    columns. The last column shows [memory_percent * 100] with two
    decimals; the float product and its rendering are not modelled, the
    row keeps the value read from the entry. *)
Record row : Type := mk_row
  { row_line : Z;
    row_pid : Z;
    row_name : string;
    row_username : string;
    row_memory : Q }.

(** [None * 100] and [len(None)]. *)
Definition mul_none : exn :=
  mk_exn OtherException "unsupported operand type(s) for *: 'NoneType' and 'int'".

Definition len_none : exn :=
  mk_exn OtherException "object of type 'NoneType' has no len()".

(** [for cnt, process in enumerate(data): ...]: the four values are read
    first, then the loop breaks when [cnt >= ui.height-2], then the row
    is printed at line [cnt+2]. Nothing catches the exceptions. *)
Fixpoint frame_loop (height cnt : Z) (data : list ProcessInfo) (printed : list row)
    : result (list row) :=
  match data with
  | [] => Ok printed
  | process :: rest =>
      match memory_percent process with
      | None => Raise mul_none
      | Some mp =>
          if height - 2 <=? cnt then Ok printed
          else
            match name process with
            | None => Raise len_none
            | Some n =>
                frame_loop height (cnt + 1) rest
                  (printed ++ [ {| row_line := cnt + 2;
                                   row_pid := pid process;
                                   row_name := n;
                                   row_username := light_username process;
                                   row_memory := mp |} ])%list
            end
      end
  end.

(** [data = sys.get_running_processes()] and the loop over it. *)
Definition frame (o : OS) (height : Z) : M (list row) :=
  data <- get_running_processes o ;;
  lift (frame_loop height 0 data []).

(** The rows of the entries [data], the first at line [cnt + 2], when
    every entry has a name and a memory share. *)
Fixpoint rows_from (cnt : Z) (data : list ProcessInfo) : list row :=
  match data with
  | [] => []
  | process :: rest =>
      match memory_percent process, name process with
      | Some mp, Some n =>
          {| row_line := cnt + 2; row_pid := pid process; row_name := n;
             row_username := light_username process; row_memory := mp |}
          :: rows_from (cnt + 1) rest
      | _, _ => rows_from (cnt + 1) rest
      end
  end.

Definition complete (process : ProcessInfo) : bool :=
  match memory_percent process, name process with
  | Some _, Some _ => true
  | _, _ => false
  end.

End Light.

(** ** The process table ([ProcessTable.update_processes]) *)

Module Table.

(** How the run time renders values, and the text of the [TypeError] a
    sort raises when it compares a key that is [None]. *)
Record Rendering : Type := mk_Rendering
  { str_int : Z -> string;
    format_1f : Q -> string;
    sort_error : list ProcessInfo -> string }.

(** [str(x)] of a value that is a string or [None]. *)
Definition str_opt (x : option string) : string :=
  match x with Some t => t | None => "None" end.

Definition table_row : Type := string * string * string * string.

(** [x.get('memory_percent', 0)] of every entry, when none is [None]. *)
Fixpoint sort_keys (processes : list ProcessInfo) : option (list (Q * ProcessInfo)) :=
  match processes with
  | [] => Some []
  | p :: rest =>
      match memory_percent p, sort_keys rest with
      | Some k, Some l => Some ((k, p) :: l)
      | _, _ => None
      end
  end.

(** [sorted(..., reverse=True)]: descending by key, entries with equal
    keys in their original order. *)
Fixpoint insert_desc (x : Q * ProcessInfo) (l : list (Q * ProcessInfo))
    : list (Q * ProcessInfo) :=
  match l with
  | [] => [x]
  | y :: rest =>
      if Qle_bool (fst y) (fst x) then x :: y :: rest
      else y :: insert_desc x rest
  end.

Definition sorted_desc (l : list (Q * ProcessInfo)) : list (Q * ProcessInfo) :=
  foldr insert_desc [] l.

(** [sorted(...)[:20]] *)
Definition shown (l : list (Q * ProcessInfo)) : list (Q * ProcessInfo) :=
  take 20 (sorted_desc l).

(** [b] may follow [a] in the table: its key is not larger. *)
Definition below (a b : Q * ProcessInfo) : Prop := (fst b <= fst a)%Q.

Definition row_of (r : Rendering) (x : Q * ProcessInfo) : table_row :=
  (str_int r (pid (snd x)), str_opt (name (snd x)), str_opt (username (snd x)),
   format_1f r (fst x) ++ "%").

Definition error_row (msg : string) : table_row :=
  ("Error", "Failed to update process data: " ++ msg, EmptyString, EmptyString).

(** The rows of the table after [update_processes(processes)]: the table
    is cleared first, so these are all its rows. The entries are those of
    [get_running_processes], which carry all four keys. *)
Definition update_processes (r : Rendering) (processes : list ProcessInfo)
    : list table_row :=
  match processes with
  | [] => [("No processes", "available", EmptyString, EmptyString)]
  | [p] =>
      match memory_percent p with
      | Some k => [row_of r (k, p)]
      | None => [error_row "unsupported format string passed to NoneType.__format__"]
      end
  | _ =>
      match sort_keys processes with
      | Some l => map (row_of r) (shown l)
      | None => [error_row (sort_error r processes)]
      end
  end.

End Table.

(** A rendering and three entries, for examples. *)
Definition example_rendering : Table.Rendering :=
  {| Table.str_int := fun n => pretty n;
     Table.format_1f := fun q => pretty (Qnum q) ++ "/" ++ pretty (Zpos (Qden q));
     Table.sort_error :=
       fun _ => "'<' not supported between instances of 'NoneType' and 'float'" |}.

Definition entry_init : ProcessInfo :=
  {| pid := 1; name := Some "init"; username := Some "root";
     memory_percent := Some (1 # 2)%Q |}.

Definition entry_db : ProcessInfo :=
  {| pid := 40; name := Some "postgres"; username := Some "db";
     memory_percent := Some (3 # 1)%Q |}.

Definition entry_kthread : ProcessInfo :=
  {| pid := 7; name := Some "kthread"; username := None;
     memory_percent := Some (1 # 2)%Q |}.


(** * Properties *)

Local Open Scope list_scope.

(** ** The node identifier *)

Module MacFacts.
Import Mac.

Lemma py_range_0_12_2 : py_range 0 (2 * 6) 2 = [0; 2; 4; 6; 8; 10].
Proof. reflexivity. Qed.

(** The six fields are windows of eight bits that start at bits 10, 8, 6,
    4, 2 and 0: they overlap, and none looks above bit 17. *)
Lemma mac_address_unfold (node : Z) :
  mac_address node =
  String.concat ":"
    [format_02x (Z.land (Z.shiftr node 10) 255);
     format_02x (Z.land (Z.shiftr node 8) 255);
     format_02x (Z.land (Z.shiftr node 6) 255);
     format_02x (Z.land (Z.shiftr node 4) 255);
     format_02x (Z.land (Z.shiftr node 2) 255);
     format_02x (Z.land (Z.shiftr node 0) 255)].
Proof. reflexivity. Qed.

Lemma window_low_bits (node e : Z) :
  0 <= e <= 10 ->
  Z.land (Z.shiftr (node mod 2 ^ 18) e) 255 = Z.land (Z.shiftr node e) 255.
Proof.
  intros He. apply Z.bits_inj'. intros n Hn.
  rewrite !Z.land_spec, !Z.shiftr_spec by lia.
  change 255 with (Z.ones 8).
  destruct (Z.ltb_spec n 8) as [Hlt | Hge].
  - rewrite Z.mod_pow2_bits_low by lia. reflexivity.
  - rewrite Z.ones_spec_high by lia. rewrite !andb_false_r. reflexivity.
Qed.

(** Only the low 18 bits of the identifier reach the rendered address. *)
Lemma mac_address_low_bits (node : Z) :
  mac_address (node mod 2 ^ 18) = mac_address node.
Proof.
  rewrite !mac_address_unfold.
  rewrite !window_low_bits by lia. reflexivity.
Qed.

End MacFacts.

(** ** Reasoning about the monad *)

Section MonadFacts.
Context {A B : Type}.

Lemma bind_ok_inv (m : M A) (f : A -> M B) (s s2 : st) (b : B) :
  bind m f s = (Ok b, s2) ->
  exists a s1, m s = (Ok a, s1) /\ f a s1 = (Ok b, s2).
Proof.
  unfold bind. destruct (m s) as [[a | e] s1]; intros H.
  - exists a, s1. split; [reflexivity | exact H].
  - discriminate H.
Qed.

Lemma bind_ok (m : M A) (f : A -> M B) (s s1 : st) (a : A) :
  m s = (Ok a, s1) -> bind m f s = f a s1.
Proof. unfold bind. intros ->. reflexivity. Qed.

Lemma bind_raise (m : M A) (f : A -> M B) (s s1 : st) (e : exn) :
  m s = (Raise e, s1) -> bind m f s = (Raise e, s1).
Proof. unfold bind. intros ->. reflexivity. Qed.

Lemma os_call_ok_inv (o : OS) (q : query) (r : result A) (s s1 : st) (a : A) :
  os_call o q r s = (Ok a, s1) ->
  r = Ok a /\
  s1 = {| clock := clock s + Z.of_N (duration o q); log := (log s ++ [q])%list |}.
Proof. unfold os_call. intros H. inversion H. split; reflexivity. Qed.

End MonadFacts.

Ltac bind_inv H :=
  let a := fresh "a" in
  let s := fresh "s" in
  let H1 := fresh "Hcall" in
  apply bind_ok_inv in H; destruct H as (a & s & H1 & H).

(** The list comprehension of [collect] computes [Mac.mac_address] of the
    node identifier. *)
Lemma network_data_mac (o : OS) (s s' : st) (n : NetworkData) :
  network_data o s = (Ok n, s') ->
  mac_address n = Mac.mac_address (uuid_getnode o).
Proof.
  unfold network_data. intros H.
  do 3 bind_inv H.
  rewrite MacFacts.py_range_0_12_2 in H. cbn [comprehension] in H.
  unfold bind at 1 2 3 4 5 6 7 8 9 10 11 12 13 in H.
  unfold os_call at 1 2 3 4 5 6 in H. unfold ret at 1 2 3 4 5 6 7 8 9 10 11 12 13 in H.
  cbn beta iota in H.
  bind_inv H. unfold ret in H. inversion H; subst n. reflexivity.
Qed.

(** C4. The [mac_address] field is not the six octets of the node
    identifier: the comprehension shifts by 0, 2, ..., 10 bits
    ([range(0,2*6,2)]) where octets need 0, 8, ..., 40, so for the
    identifier [0x001122334455] the code renders ["d1:44:11:45:15:55"]
    while the octets, most significant first, are ["00:11:22:33:44:55"]. *)
Theorem C4_mac_address_shifts_two_bits :
  exists n s',
    network_data example_os example_st = (Ok n, s') /\
    uuid_getnode example_os = 0x001122334455 /\
    mac_address n = "d1:44:11:45:15:55" /\
    Mac.mac_address_spec (uuid_getnode example_os) = "00:11:22:33:44:55" /\
    mac_address n <> Mac.mac_address_spec (uuid_getnode example_os).
Proof.
  destruct (network_data example_os example_st) as [r s'] eqn:E.
  vm_compute in E.
  match type of E with (Ok ?n, ?s) = _ => exists n, s end.
  split; [symmetry; exact E |].
  split; [reflexivity |].
  split; [reflexivity |].
  split; [reflexivity |].
  vm_compute. discriminate.
Qed.

(** ** Disks *)

Section Disks.
Variable o : OS.






End Disks.









(** ** Network interfaces *)

Section Interfaces.
Variable o : OS.

Lemma addresses_loop_run (interface : string) (addresses : list raw_addr)
    (cur : list NetworkAddress) (m : gmap string (list NetworkAddress)) (s : st) :
  addresses_loop o interface addresses (<[interface := cur]> m) s =
  (match addresses_of o addresses with
   | Ok l => Ok (<[interface := cur ++ l]> m)
   | Raise e => Raise e
   end, s).
Proof.
  revert cur. induction addresses as [| a rest IH]; intros cur.
  - cbn. rewrite app_nil_r. reflexivity.
  - destruct a as [a | e]; cbn [addresses_loop addresses_of addr_info].
    + unfold bind, ret. rewrite alter_insert_eq. rewrite IH.
      destruct (addresses_of o rest) as [l | e]; [| reflexivity].
      rewrite <- app_assoc. reflexivity.
    + reflexivity.
Qed.

Lemma interfaces_loop_run (items : list (string * list raw_addr))
    (m : gmap string (list NetworkAddress)) (s : st) :
  interfaces_loop o items m s = (interfaces_after o items m, s).
Proof.
  revert m. induction items as [| [interface addresses] rest IH]; intros m.
  - reflexivity.
  - cbn [interfaces_loop interfaces_after]. unfold bind.
    rewrite addresses_loop_run. cbn [app].
    destruct (addresses_of o addresses) as [l | e]; [| reflexivity].
    apply IH.
Qed.

Lemma get_network_interfaces_run (items : list (string * list raw_addr)) (s : st) :
  net_if_addrs o = Ok items ->
  value (get_network_interfaces o s) = interfaces_after o items ∅.
Proof.
  intros H. unfold get_network_interfaces, bind, os_call. rewrite H.
  rewrite interfaces_loop_run. reflexivity.
Qed.

Lemma addresses_of_malformed (addresses : list raw_addr) :
  match first_malformed addresses with
  | Some e => addresses_of o addresses = Raise e
  | None => exists l, addresses_of o addresses = Ok l
  end.
Proof.
  induction addresses as [| a rest IH].
  - cbn. exists []. reflexivity.
  - destruct a as [a | e]; cbn [first_malformed addresses_of]; [| reflexivity].
    destruct (first_malformed rest) as [e |].
    + rewrite IH. reflexivity.
    + destruct IH as [l ->]. eexists. reflexivity.
Qed.

Lemma interfaces_after_raise (items : list (string * list raw_addr))
    (m : gmap string (list NetworkAddress)) (e : exn) :
  malformed_entry items = Some e -> interfaces_after o items m = Raise e.
Proof.
  revert m. induction items as [| [interface addresses] rest IH]; intros m H.
  - discriminate H.
  - cbn [malformed_entry interfaces_after] in *.
    pose proof (addresses_of_malformed addresses) as Ha.
    destruct (first_malformed addresses) as [e' |].
    + rewrite Ha. congruence.
    + destruct Ha as [l ->]. apply IH. exact H.
Qed.

Lemma interfaces_after_other (items : list (string * list raw_addr))
    (m m' : gmap string (list NetworkAddress)) (interface : string) :
  interface ∉ map fst items ->
  interfaces_after o items m = Ok m' ->
  m' !! interface = m !! interface.
Proof.
  revert m. induction items as [| [i addresses] rest IH]; intros m Hni H.
  - cbn in H. congruence.
  - cbn [map fst] in Hni. apply not_elem_of_cons in Hni. destruct Hni as [Hne Hni].
    cbn [interfaces_after] in H.
    destruct (addresses_of o addresses) as [l | e]; [| discriminate H].
    rewrite (IH _ Hni H). apply lookup_insert_ne. congruence.
Qed.

Lemma interfaces_after_ok (items : list (string * list raw_addr))
    (m : gmap string (list NetworkAddress)) :
  malformed_entry items = None ->
  exists m', interfaces_after o items m = Ok m' /\
    (NoDup (map fst items) ->
     forall interface addresses, (interface, addresses) ∈ items ->
       exists l, addresses_of o addresses = Ok l /\ m' !! interface = Some l).
Proof.
  revert m. induction items as [| [i addresses] rest IH]; intros m H.
  - exists m. split; [reflexivity |]. intros _ interface a Hin. inversion Hin.
  - cbn [malformed_entry interfaces_after] in *.
    pose proof (addresses_of_malformed addresses) as Ha.
    destruct (first_malformed addresses) as [e' |]; [discriminate H |].
    destruct Ha as [l Hl]. rewrite Hl.
    destruct (IH (<[i := l]> m) H) as (m' & Hm' & Hlook).
    exists m'. split; [exact Hm' |].
    intros Hnd interface a Hin.
    cbn [map fst] in Hnd. apply NoDup_cons in Hnd. destruct Hnd as [Hi Hnd].
    apply elem_of_cons in Hin. destruct Hin as [Heq | Hin].
    + inversion Heq; subst. exists l. split; [exact Hl |].
      rewrite (interfaces_after_other _ _ _ _ Hi Hm'). apply lookup_insert_eq.
    + apply Hlook; assumption.
Qed.

End Interfaces.

(** C7, as the source has it. [get_network_interfaces] has no handler
    around an entry: when the enumeration contains a malformed entry, the
    exception raised on reading the first one leaves the function (no map
    is returned); when it contains none, the call returns a map in which
    every interface has its addresses, in the order of the enumeration. *)
Theorem C7_malformed_interface_aborts (o : OS) (s : st)
    (items : list (string * list raw_addr)) :
  net_if_addrs o = Ok items ->
  (forall e, malformed_entry items = Some e ->
             value (get_network_interfaces o s) = Raise e) /\
  (malformed_entry items = None ->
   exists m, value (get_network_interfaces o s) = Ok m /\
     (NoDup (map fst items) ->
      forall interface addresses, (interface, addresses) ∈ items ->
        exists l, addresses_of o addresses = Ok l /\ m !! interface = Some l)).
Proof.
  intros H. split.
  - intros e He. rewrite (get_network_interfaces_run o items s H).
    apply interfaces_after_raise. exact He.
  - intros Hnone. rewrite (get_network_interfaces_run o items s H).
    apply interfaces_after_ok. exact Hnone.
Qed.

Lemma C7_malformed_interface_aborts_witness :
  value (get_network_interfaces os_malformed_interface example_st) = Raise no_attribute /\
  exists m, value (get_network_interfaces os_two_interfaces example_st) = Ok m /\
            m !! "wlan0" = Some [snic_info os_two_interfaces
                                   {| nic_family := 2; nic_address := "192.168.0.7";
                                      nic_netmask := Some "255.255.255.0" |}].
Proof.
  split.
  - apply (proj1 (C7_malformed_interface_aborts os_malformed_interface example_st
                    [("lo", [loopback]); ("eth0", [Malformed no_attribute]);
                     ("wlan0", [wlan_addr])] eq_refl)).
    reflexivity.
  - destruct (proj2 (C7_malformed_interface_aborts os_two_interfaces example_st
                       [("lo", [loopback]); ("wlan0", [wlan_addr])] eq_refl) eq_refl)
      as (m & Hm & Hlook).
    exists m. split; [exact Hm |].
    assert (Hnd : NoDup (map fst [("lo", [loopback]); ("wlan0", [wlan_addr])]))
      by (cbn [map fst];
          repeat (apply NoDup_cons; split;
                  [intros Hin;
                   repeat (apply elem_of_cons in Hin; destruct Hin as [Hin | Hin];
                           [discriminate Hin |]);
                   inversion Hin |]);
          apply NoDup_nil_2).
    destruct (Hlook Hnd "wlan0" [wlan_addr]) as (l & Hl & Hm').
    + apply list_elem_of_further. apply list_elem_of_here.
    + cbn in Hl. inversion Hl. subst l. exact Hm'.
Defined.

(** C7, as stated, fails: with the interfaces [lo], [eth0] and [wlan0], of
    which [eth0] has a malformed entry, the call raises that entry's
    exception instead of returning a map with [lo] and [wlan0]. *)
Lemma C7_counterexample :
  net_if_addrs os_malformed_interface
    = Ok [("lo", [loopback]); ("eth0", [Malformed no_attribute]); ("wlan0", [wlan_addr])] /\
  value (get_network_interfaces os_malformed_interface example_st) = Raise no_attribute /\
  ~ (exists m, value (get_network_interfaces os_malformed_interface example_st) = Ok m).
Proof.
  split; [reflexivity |]. split; [reflexivity |].
  intros [m Hm]. vm_compute in Hm. discriminate Hm.
Qed.

(** ** Processes *)

Lemma processes_loop_run (procs : list (result proc_info)) (processes : list ProcessInfo)
    (s : st) :
  processes_loop procs processes s =
  (match fatal procs with
   | Some e => Raise e
   | None => Ok (processes ++ entries procs)
   end, s).
Proof.
  revert processes. induction procs as [| [info | e] rest IH]; intros processes.
  - cbn. rewrite app_nil_r. reflexivity.
  - cbn [processes_loop fatal entries]. unfold bind at 1, try_except, bind, lift, ret.
    rewrite IH. destruct (fatal rest); [reflexivity |].
    rewrite <- app_assoc. reflexivity.
  - cbn [processes_loop fatal entries]. unfold bind at 1, try_except, bind, lift, ret.
    destruct (process_gone e); [apply IH | reflexivity].
Qed.

Lemma get_running_processes_run (o : OS) (procs : list (result proc_info)) (s : st) :
  process_iter o = Ok procs ->
  get_running_processes o s =
  (match fatal procs with
   | Some e => Raise e
   | None => Ok (entries procs)
   end,
   {| clock := clock s + Z.of_N (duration o QProcessIter); log := log s ++ [QProcessIter] |}).
Proof.
  intros H. unfold get_running_processes, bind, os_call. rewrite H.
  rewrite processes_loop_run. reflexivity.
Qed.

Lemma entries_elem (procs : list (result proc_info)) (info : proc_info) :
  Ok info ∈ procs -> process_entry info ∈ entries procs.
Proof.
  induction procs as [| [i | e] rest IH]; intros Hin.
  - inversion Hin.
  - apply elem_of_cons in Hin. destruct Hin as [Heq | Hin].
    + inversion Heq. apply list_elem_of_here.
    + apply list_elem_of_further. apply IH. exact Hin.
  - apply elem_of_cons in Hin. destruct Hin as [Heq | Hin]; [discriminate Heq |].
    apply IH. exact Hin.
Qed.

Lemma entries_pid (procs : list (result proc_info)) (P : Z) :
  P ∈ map pid (entries procs) -> exists info, Ok info ∈ procs /\ info_pid info = P.
Proof.
  induction procs as [| [i | e] rest IH]; cbn [entries map]; intros Hin.
  - inversion Hin.
  - apply elem_of_cons in Hin. destruct Hin as [Heq | Hin].
    + exists i. split; [apply list_elem_of_here | symmetry; exact Heq].
    + destruct (IH Hin) as (info & Hi & Hp). exists info.
      split; [apply list_elem_of_further; exact Hi | exact Hp].
  - destruct (IH Hin) as (info & Hi & Hp). exists info.
    split; [apply list_elem_of_further; exact Hi | exact Hp].
Qed.

(** C8, as the source has it. [get_running_processes] copies
    [proc.info['username']] as it is: for a process whose username is
    absent the entry carries [None]; the empty string appears only where
    the light display renders the entry. *)
Theorem C8_absent_username_stays_none (o : OS) (s : st)
    (procs : list (result proc_info)) (info : proc_info) :
  process_iter o = Ok procs ->
  fatal procs = None ->
  Ok info ∈ procs ->
  info_username info = None ->
  exists ps,
    value (get_running_processes o s) = Ok ps /\
    process_entry info ∈ ps /\
    pid (process_entry info) = info_pid info /\
    username (process_entry info) = None /\
    getitem (dict_ProcessInfo (process_entry info)) "username" = Some PNone /\
    light_username (process_entry info) = EmptyString.
Proof.
  intros Hiter Hfatal Hin Hnone.
  exists (entries procs).
  rewrite (get_running_processes_run o procs s Hiter). rewrite Hfatal.
  split; [reflexivity |].
  split; [apply entries_elem; exact Hin |].
  split; [reflexivity |].
  unfold light_username, dict_ProcessInfo. cbn. rewrite Hnone.
  repeat split; reflexivity.
Qed.

Lemma C8_absent_username_stays_none_witness :
  exists ps,
    value (get_running_processes example_os example_st) = Ok ps /\
    process_entry (mk_proc_info 7 (Some "kthread") None (Some (1 # 2)%Q)) ∈ ps /\
    pid (process_entry (mk_proc_info 7 (Some "kthread") None (Some (1 # 2)%Q))) = 7 /\
    username (process_entry (mk_proc_info 7 (Some "kthread") None (Some (1 # 2)%Q))) = None /\
    getitem (dict_ProcessInfo
               (process_entry (mk_proc_info 7 (Some "kthread") None (Some (1 # 2)%Q))))
            "username" = Some PNone /\
    light_username (process_entry (mk_proc_info 7 (Some "kthread") None (Some (1 # 2)%Q))) = EmptyString.
Proof.
  apply (C8_absent_username_stays_none example_os example_st
           [example_proc 1 "init" (Some "root");
            Raise (mk_exn NoSuchProcess "process no longer exists");
            example_proc 7 "kthread" None]).
  - reflexivity.
  - reflexivity.
  - do 2 apply list_elem_of_further. apply list_elem_of_here.
  - reflexivity.
Defined.

(** C8, as stated, fails: process 7 of the example host has no username,
    and its entry carries [None], not the empty string. *)
Lemma C8_counterexample :
  exists ps p,
    value (get_running_processes example_os example_st) = Ok ps /\
    ps !! 1%nat = Some p /\
    pid p = 7 /\
    username p = None /\
    username p <> Some EmptyString.
Proof.
  eexists. eexists.
  split; [vm_compute; reflexivity |].
  split; [reflexivity |].
  split; [reflexivity |].
  split; [reflexivity | discriminate].
Qed.

(** C9. [total_processes] is the length of [psutil.pids()], a query of its
    own issued before [process_iter]; the list holds the entries of the
    processes the second pass could read. A process [P] with no readable
    entry in the second pass is absent from [running_processes], whatever
    the first pass counted, so the two may differ. *)
Theorem C9_total_processes_independent (o : OS) (s : st)
    (all : list Z) (procs : list (result proc_info)) :
  pids o = Ok all ->
  process_iter o = Ok procs ->
  fatal procs = None ->
  exists pd s',
    process_data o s = (Ok pd, s') /\
    log s' = log s ++ [QPids; QProcessIter] /\
    total_processes pd = Z.of_nat (length all) /\
    running_processes pd = entries procs /\
    (forall P, (forall info, Ok info ∈ procs -> info_pid info <> P) ->
               P ∉ map pid (running_processes pd)).
Proof.
  intros Hpids Hiter Hfatal.
  unfold process_data, bind at 1, os_call at 1. rewrite Hpids.
  unfold bind. rewrite (get_running_processes_run o procs _ Hiter). rewrite Hfatal.
  eexists. eexists. split; [reflexivity |].
  cbn [log total_processes running_processes].
  split; [rewrite <- app_assoc; reflexivity |].
  split; [reflexivity |].
  split; [reflexivity |].
  intros P HP Hin. destruct (entries_pid procs P Hin) as (info & Hi & Hp).
  exact (HP info Hi Hp).
Qed.

Lemma C9_total_processes_independent_witness :
  exists pd s',
    process_data example_os example_st = (Ok pd, s') /\
    total_processes pd = 3 /\
    map pid (running_processes pd) = [1; 7] /\
    (2 ∉ map pid (running_processes pd)) /\
    total_processes pd <> Z.of_nat (length (running_processes pd)).
Proof.
  destruct (C9_total_processes_independent example_os example_st [1; 2; 7]
              [example_proc 1 "init" (Some "root");
               Raise (mk_exn NoSuchProcess "process no longer exists");
               example_proc 7 "kthread" None] eq_refl eq_refl eq_refl)
    as (pd & s' & Hrun & _ & Htotal & Hlist & Hgone).
  exists pd, s'.
  split; [exact Hrun |].
  split; [exact Htotal |].
  split; [rewrite Hlist; reflexivity |].
  split.
  - apply Hgone. intros info Hin Hp.
    repeat (apply elem_of_cons in Hin; destruct Hin as [Hin | Hin];
            [inversion Hin; subst info; discriminate Hp |]).
    inversion Hin.
  - rewrite Htotal, Hlist. discriminate.
Defined.

(** ** When the clock is read *)

Lemma elapsed_app (o : OS) (l1 l2 : list query) :
  elapsed o (l1 ++ l2) = elapsed o l1 + elapsed o l2.
Proof.
  unfold elapsed. induction l1 as [| q l1 IH]; cbn [app foldr]; [reflexivity |].
  rewrite IH. lia.
Qed.

Lemma elapsed_nonneg (o : OS) (l : list query) : 0 <= elapsed o l.
Proof.
  unfold elapsed. induction l as [| q l IH]; cbn [foldr]; lia.
Qed.

Section Traced.
Variable o : OS.

Lemma traced_ret {A} (a : A) : traced o [] (ret a).
Proof.
  intros s r s' H. inversion H; subst. exists [].
  rewrite app_nil_r. cbn. repeat split; [apply not_elem_of_nil | lia |].
  intros _ q Hq. inversion Hq.
Qed.

Lemma traced_raise {A} (qs : list query) (e : exn) : traced o qs (raise (A := A) e).
Proof.
  intros s r s' H. inversion H; subst. exists [].
  rewrite app_nil_r. cbn. repeat split; [apply not_elem_of_nil | lia |].
  intros Hok. discriminate Hok.
Qed.

Lemma traced_lift {A} (r : result A) : traced o [] (lift r).
Proof.
  intros s r' s' H. inversion H; subst. exists [].
  rewrite app_nil_r. cbn. repeat split; [apply not_elem_of_nil | lia |].
  intros _ q Hq. inversion Hq.
Qed.

Lemma traced_os_call {A} (q : query) (r : result A) :
  q <> QNow -> traced o [q] (os_call o q r).
Proof.
  intros Hq s r' s' H. inversion H; subst. exists [q]. cbn.
  repeat split.
  - intros Hin. apply elem_of_cons in Hin. destruct Hin as [Heq | Hin]; [congruence |].
    inversion Hin.
  - lia.
  - intros _ q' Hq'. exact Hq'.
Qed.

Lemma traced_bind {A B} (qs1 qs2 : list query) (m : M A) (f : A -> M B) :
  traced o qs1 m -> (forall a, traced o qs2 (f a)) -> traced o (qs1 ++ qs2) (bind m f).
Proof.
  intros Hm Hf s r s' H. unfold bind in H.
  destruct (m s) as [[a | e] s1] eqn:E.
  - destruct (Hm _ _ _ E) as (l1 & Hl1 & Hn1 & Hc1 & Hq1).
    destruct (Hf a _ _ _ H) as (l2 & Hl2 & Hn2 & Hc2 & Hq2).
    exists (l1 ++ l2). rewrite Hl2, Hl1, Hc2, Hc1, elapsed_app, <- app_assoc.
    repeat split.
    + intros Hin. apply elem_of_app in Hin. tauto.
    + lia.
    + intros Hok q Hq. apply elem_of_app. apply elem_of_app in Hq.
      destruct Hq as [Hq | Hq]; [left; apply Hq1; [reflexivity | exact Hq] |].
      right. apply Hq2; assumption.
  - inversion H; subst. destruct (Hm _ _ _ E) as (l1 & Hl1 & Hn1 & Hc1 & _).
    exists l1. repeat split; try assumption. intros Hok. discriminate Hok.
Qed.

Lemma traced_weaken {A} (qs qs' : list query) (m : M A) :
  traced o qs m -> (forall q, q ∈ qs' -> q ∈ qs) -> traced o qs' m.
Proof.
  intros Hm Hsub s r s' H. destruct (Hm _ _ _ H) as (l & Hl & Hn & Hc & Hq).
  exists l. repeat split; try assumption. intros Hok q Hin. apply Hq; auto.
Qed.

Lemma traced_nil {A} (qs : list query) (m : M A) : traced o qs m -> traced o [] m.
Proof. intros H. apply (traced_weaken qs); [exact H |]. intros q Hq. inversion Hq. Qed.

(** A handler that issues no query keeps the queries of the body that
    are issued whatever its outcome; here only the absence of [QNow] and
    the elapsed time are kept. *)
Lemma traced_try_except {A} (qs : list query) (m : M A) (c : exn -> bool)
    (h : exn -> M A) :
  traced o qs m -> (forall e, traced o [] (h e)) -> traced o [] (try_except m c h).
Proof.
  intros Hm Hh s r s' H. unfold try_except in H.
  destruct (m s) as [[a | e] s1] eqn:E.
  - inversion H; subst. destruct (Hm _ _ _ E) as (l & Hl & Hn & Hc & _).
    exists l. repeat split; try assumption. intros _ q Hq. inversion Hq.
  - destruct (Hm _ _ _ E) as (l1 & Hl1 & Hn1 & Hc1 & _).
    destruct (c e).
    + destruct (Hh e _ _ _ H) as (l2 & Hl2 & Hn2 & Hc2 & _).
      exists (l1 ++ l2). rewrite Hl2, Hl1, Hc2, Hc1, elapsed_app, <- app_assoc.
      repeat split.
      * intros Hin. apply elem_of_app in Hin. tauto.
      * lia.
      * intros _ q Hq. inversion Hq.
    + inversion H; subst. exists l1. repeat split; try assumption.
      intros Hok. discriminate Hok.
Qed.

Lemma traced_bind_nil {A B} (m : M A) (f : A -> M B) :
  traced o [] m -> (forall a, traced o [] (f a)) -> traced o [] (bind m f).
Proof. intros Hm Hf. apply (traced_bind [] [] m f Hm Hf). Qed.

Lemma traced_comprehension {A B} (f : A -> M B) (l : list A) :
  (forall x, traced o [] (f x)) -> traced o [] (comprehension f l).
Proof.
  intros Hf. induction l as [| x l IH]; cbn [comprehension].
  - apply traced_ret.
  - apply traced_bind_nil; [apply Hf |]. intros y.
    apply traced_bind_nil; [exact IH |]. intros ys. apply traced_ret.
Qed.

Lemma traced_addresses_loop (interface : string) (addresses : list raw_addr)
    (m : gmap string (list NetworkAddress)) :
  traced o [] (addresses_loop o interface addresses m).
Proof.
  revert m. induction addresses as [| a rest IH]; intros m; cbn [addresses_loop].
  - apply traced_ret.
  - apply traced_bind_nil; [| intros i; apply IH].
    destruct a; cbn [addr_info]; [apply traced_ret | apply traced_raise].
Qed.

Lemma traced_interfaces_loop (items : list (string * list raw_addr))
    (m : gmap string (list NetworkAddress)) :
  traced o [] (interfaces_loop o items m).
Proof.
  revert m. induction items as [| [i a] rest IH]; intros m; cbn [interfaces_loop].
  - apply traced_ret.
  - apply traced_bind_nil; [apply traced_addresses_loop | intros m'; apply IH].
Qed.

Lemma traced_partitions_loop (ps : list sdiskpart) (disks : gmap string DiskInfo) :
  traced o [] (partitions_loop o ps disks).
Proof.
  revert disks. induction ps as [| p ps IH]; intros disks; cbn [partitions_loop].
  - apply traced_ret.
  - apply traced_bind_nil; [| intros d; apply IH].
    eapply traced_try_except; [| intros e; apply traced_ret].
    eapply traced_bind; [apply traced_os_call; discriminate |].
    intros u. apply traced_ret.
Qed.

Lemma traced_processes_loop (procs : list (result proc_info))
    (processes : list ProcessInfo) :
  traced o [] (processes_loop procs processes).
Proof.
  revert processes. induction procs as [| p procs IH]; intros processes;
    cbn [processes_loop].
  - apply traced_ret.
  - apply traced_bind_nil; [| intros d; apply IH].
    eapply traced_try_except; [| intros e; apply traced_ret].
    eapply traced_bind; [apply traced_lift |].
    intros u. apply traced_ret.
Qed.

End Traced.

Ltac traced_step :=
  first
    [ apply traced_ret
    | apply traced_raise
    | apply traced_lift
    | apply traced_os_call; discriminate
    | eapply traced_bind; [| intros ?] ].

Ltac in_list :=
  let q := fresh "q" in
  let Hq := fresh "Hq" in
  intros q Hq;
  repeat (apply elem_of_cons in Hq; destruct Hq as [-> | Hq]);
  [.. | inversion Hq];
  cbn [app];
  repeat first [apply list_elem_of_here | apply list_elem_of_further].

Section Collectors.
Variable o : OS.

Lemma traced_platform_data : traced o [QPlatformSystem] (platform_data o).
Proof.
  unfold platform_data.
  eapply traced_weaken; [repeat traced_step | in_list].
Qed.

Lemma traced_get_network_interfaces :
  traced o [QNetIfAddrs] (get_network_interfaces o).
Proof.
  unfold get_network_interfaces.
  eapply traced_weaken;
    [eapply traced_bind; [traced_step | intros; apply traced_interfaces_loop] | in_list].
Qed.

Lemma traced_network_data : traced o [QGethostname; QNetIfAddrs] (network_data o).
Proof.
  unfold network_data.
  eapply traced_weaken.
  - eapply traced_bind; [traced_step | intros ?].
    eapply traced_bind; [traced_step | intros ?].
    eapply traced_bind; [traced_step | intros ?].
    eapply traced_bind; [| intros ?].
    + apply traced_comprehension. intros x.
      eapply traced_nil. repeat traced_step.
    + eapply traced_bind; [apply traced_get_network_interfaces | intros ?].
      apply traced_ret.
  - in_list.
Qed.

Lemma traced_get_cpu_frequency : traced o [] (get_cpu_frequency o).
Proof.
  unfold get_cpu_frequency.
  eapply traced_try_except; [| intros e; apply traced_ret].
  eapply traced_bind; [traced_step | intros f].
  destruct f; [apply traced_ret | apply (traced_raise o [])].
Qed.

Lemma traced_get_disk_info : traced o [QDiskPartitions] (get_disk_info o).
Proof.
  unfold get_disk_info.
  eapply traced_weaken;
    [eapply traced_bind; [traced_step | intros; apply traced_partitions_loop] | in_list].
Qed.

Lemma traced_get_running_processes :
  traced o [QProcessIter] (get_running_processes o).
Proof.
  unfold get_running_processes.
  eapply traced_weaken;
    [eapply traced_bind; [traced_step | intros; apply traced_processes_loop] | in_list].
Qed.

Lemma traced_hardware_data :
  traced o [QCpuCount false; QCpuPercent; QVirtualMemory; QDiskPartitions]
         (hardware_data o).
Proof.
  unfold hardware_data, cpu_data, memory_data.
  eapply traced_weaken.
  - eapply traced_bind; [| intros ?].
    + eapply traced_bind; [traced_step | intros ?].
      eapply traced_bind; [traced_step | intros ?].
      eapply traced_bind; [apply traced_get_cpu_frequency | intros ?].
      eapply traced_bind; [traced_step | intros ?].
      apply traced_ret.
    + eapply traced_bind; [| intros ?].
      * eapply traced_bind; [traced_step | intros ?]. apply traced_ret.
      * eapply traced_bind; [apply traced_get_disk_info | intros ?]. apply traced_ret.
  - in_list.
Qed.

Lemma traced_process_data : traced o [QPids; QProcessIter] (process_data o).
Proof.
  unfold process_data.
  eapply traced_weaken.
  - eapply traced_bind; [traced_step | intros ?].
    eapply traced_bind; [apply traced_get_running_processes | intros ?].
    apply traced_ret.
  - in_list.
Qed.

End Collectors.

(** C3, as the source has it. In every cycle that returns a [SystemData],
    the clock is read exactly once, and after the four categories have
    been collected: [datetime.now()] is the last query of the cycle, so
    the time stamp is the instant the collection ended, and nothing is
    queried after it. *)
Theorem C3_timestamp_taken_last (o : OS) (s s' : st) (d : SystemData) :
  collect o s = (Ok d, s') ->
  exists before,
    log s' = log s ++ before ++ [QNow] /\
    (QNow ∉ before) /\
    (forall q, q ∈ collector_queries -> q ∈ before) /\
    timestamp d = isoformat o (clock s + elapsed o before) /\
    clock s <= clock s + elapsed o before.
Proof.
  intros H. unfold collect in H.
  apply bind_ok_inv in H. destruct H as (pl & s1 & H1 & H).
  apply bind_ok_inv in H. destruct H as (nw & s2 & H2 & H).
  apply bind_ok_inv in H. destruct H as (hw & s3 & H3 & H).
  apply bind_ok_inv in H. destruct H as (pr & s4 & H4 & H).
  apply bind_ok_inv in H. destruct H as (now & s5 & H5 & H).
  unfold datetime_now in H5. unfold ret in H. inversion H5; subst now s5; clear H5.
  inversion H; subst d s'; clear H.
  destruct (traced_platform_data o _ _ _ H1) as (l1 & Hl1 & Hn1 & Hc1 & Hq1).
  destruct (traced_network_data o _ _ _ H2) as (l2 & Hl2 & Hn2 & Hc2 & Hq2).
  destruct (traced_hardware_data o _ _ _ H3) as (l3 & Hl3 & Hn3 & Hc3 & Hq3).
  destruct (traced_process_data o _ _ _ H4) as (l4 & Hl4 & Hn4 & Hc4 & Hq4).
  exists (l1 ++ l2 ++ l3 ++ l4).
  cbn [log clock timestamp].
  rewrite Hl4, Hl3, Hl2, Hl1, Hc4, Hc3, Hc2, Hc1, !elapsed_app, <- !app_assoc.
  split; [reflexivity |].
  split; [rewrite !elem_of_app; tauto |].
  split.
  - intros q Hq. rewrite !elem_of_app. unfold collector_queries in Hq.
    repeat (apply elem_of_cons in Hq; destruct Hq as [-> | Hq]); [.. | inversion Hq].
    + left. apply Hq1; [reflexivity | apply list_elem_of_here].
    + right; left. apply Hq2; [reflexivity | apply list_elem_of_here].
    + right; left. apply Hq2; [reflexivity |]. apply list_elem_of_further, list_elem_of_here.
    + right; right; left. apply Hq3; [reflexivity | apply list_elem_of_here].
    + right; right; left. apply Hq3; [reflexivity |].
      apply list_elem_of_further, list_elem_of_here.
    + right; right; left. apply Hq3; [reflexivity |].
      do 2 apply list_elem_of_further. apply list_elem_of_here.
    + right; right; left. apply Hq3; [reflexivity |].
      do 3 apply list_elem_of_further. apply list_elem_of_here.
    + right; right; right. apply Hq4; [reflexivity | apply list_elem_of_here].
    + right; right; right. apply Hq4; [reflexivity |].
      apply list_elem_of_further, list_elem_of_here.
  - split; [f_equal; lia |].
    pose proof (elapsed_nonneg o l1). pose proof (elapsed_nonneg o l2).
    pose proof (elapsed_nonneg o l3). pose proof (elapsed_nonneg o l4). lia.
Qed.

Lemma C3_timestamp_taken_last_witness :
  exists d s' before,
    collect example_os example_st = (Ok d, s') /\
    timestamp d = "101" /\
    clock example_st = 100 /\
    log s' = log example_st ++ before ++ [QNow] /\
    (QNow ∉ before) /\
    (forall q, q ∈ collector_queries -> q ∈ before).
Proof.
  destruct (collect example_os example_st) as [[d | e] s'] eqn:E;
    [| vm_compute in E; discriminate E].
  destruct (C3_timestamp_taken_last example_os example_st s' d E)
    as (before & Hlog & Hnow & Hall & _ & _).
  exists d, s', before.
  split; [reflexivity |].
  split; [vm_compute in E; inversion E; reflexivity |].
  split; [reflexivity |].
  split; [exact Hlog |].
  split; [exact Hnow | exact Hall].
Defined.

(** C3, as stated, fails: the clock is not read before the collectors are
    invoked. On the example host the cycle starts at instant 100, its
    first query is [platform.system()], and the time stamp is that of
    instant 101, after the CPU sampling. *)
Lemma C3_counterexample :
  ~ (forall o s s' d,
       collect o s = (Ok d, s') ->
       exists after, log s' = log s ++ QNow :: after /\
                     timestamp d = isoformat o (clock s)).
Proof.
  intros H.
  destruct (collect example_os example_st) as [[d | e] s'] eqn:E;
    [| vm_compute in E; discriminate E].
  destruct (H example_os example_st s' d E) as (after & Hlog & _).
  vm_compute in E. inversion E; subst s'. cbn in Hlog. discriminate Hlog.
Qed.

(** ** The manager *)

Lemma asdict_complete (d : SystemData) : structurally_complete (asdict d).
Proof.
  split; [reflexivity |].
  exists (timestamp d), (dict_PlatformData (platform d)), (dict_NetworkData (network d)),
    (dict_HardwareData (hardware d)), (dict_ProcessData (process d)).
  repeat split; reflexivity.
Qed.



(** ** The refresh logic *)

Module DisplayFacts.
Import Display.

Lemma serial_le (body : list stmt) (n : nat) : serial n body = true -> (n <= 1)%nat.
Proof.
  revert n. induction body as [| c rest IH]; intros n H.
  - cbn in H. apply Nat.eqb_eq in H. lia.
  - destruct c; cbn [serial] in H;
      try (apply IH; exact H);
      apply andb_true_iff in H; destruct H as [H _]; apply Nat.eqb_eq in H; lia.
Qed.

(** Every handler of the source enters and leaves [read_system_data]
    without an interruption in between. *)
Lemma handler_serial (t : trigger) (a : App) : serial 0 (handler t a) = true.
Proof.
  destruct t; cbn [handler]; unfold on_mount, action_refresh, action_toggle_refresh,
    refresh_data; destruct (auto_refresh a); reflexivity.
Qed.

Lemma inv_initial (s : st) : inv (initial s).
Proof. reflexivity. Qed.

Lemma inv_step (o : OS) (i : input) (x : sched) : inv x -> inv (step o i x).
Proof.
  unfold inv. intros H. destruct i as [t |].
  - destruct t; cbn [step]; try exact H.
    destruct (interval_set (app x)); exact H.
  - cbn [step]. destruct (current x) as [| c rest] eqn:Ec.
    + destruct (pending x) as [| t queue]; [rewrite Ec; exact H |].
      cbn [in_flight current]. cbn [serial] in H. apply Nat.eqb_eq in H.
      rewrite H. apply handler_serial.
    + destruct c; cbn [exec serial] in *; try exact H.
      * apply andb_true_iff in H. destruct H as [Hn H].
        apply Nat.eqb_eq in Hn. cbn [in_flight current]. rewrite Hn. exact H.
      * destruct (read_system_data o (host x)) as [r s'].
        cbn [in_flight current].
        apply andb_true_iff in H. destruct H as [Hn H].
        apply Nat.eqb_eq in Hn. rewrite Hn. exact H.
Qed.

Lemma inv_run (o : OS) (inputs : list input) (x : sched) :
  inv x -> inv (run o inputs x).
Proof.
  unfold run. revert x. induction inputs as [| i inputs IH]; intros x H; [exact H |].
  cbn [fold_left]. apply IH. apply inv_step. exact H.
Qed.

(** With auto-refresh disabled the guard of [refresh_data] returns at
    once, for the timer and for the key alike. *)
Lemma refresh_data_disabled (a : App) :
  auto_refresh a = false -> refresh_data a = [] /\ action_refresh a = [].
Proof. intros H. unfold action_refresh, refresh_data. rewrite H. split; reflexivity. Qed.

(** Nothing running and nothing pending: the event loop has nothing to do. *)
Lemma run_idle (o : OS) (n : nat) (x : sched) :
  current x = [] -> pending x = [] -> run o (repeat Run n) x = x.
Proof.
  intros Hc Hp. induction n as [| n IH]; [reflexivity |].
  cbn [repeat run fold_left step]. rewrite Hc, Hp. exact IH.
Qed.

End DisplayFacts.

(** C1. The claim describes the intended behaviour; the source misses it.
    [action_refresh] only calls [refresh_data], whose first statement
    returns when [auto_refresh] is off. In every state with auto-refresh
    disabled, no handler running and nothing pending, the key [r] runs no
    cycle: however long the event loop runs afterwards, the state is what
    it was before the key, with no call of [read_system_data], the same
    data and the same number of cycles. *)
Theorem C1_manual_refresh_gated_by_auto_refresh (o : OS) (x : Display.sched) (n : nat) :
  Display.auto_refresh (Display.app x) = false ->
  Display.current x = [] ->
  Display.pending x = [] ->
  Display.run o (Display.Arrive Display.KeyRefresh :: repeat Display.Run (S n)) x = x.
Proof.
  destruct x as [a h c p k m]. cbn [Display.app Display.current Display.pending].
  intros Ha -> ->.
  cbn [repeat Display.run fold_left Display.step Display.deliver Display.app
         Display.host Display.current Display.pending Display.in_flight Display.cycles
         Display.handler app].
  destruct (DisplayFacts.refresh_data_disabled a Ha) as [_ ->].
  apply (DisplayFacts.run_idle o n); reflexivity.
Qed.

Lemma C1_manual_refresh_gated_by_auto_refresh_witness :
  let x := Display.run example_os
             (repeat Display.Run 7 ++ [Display.Arrive Display.KeyToggle; Display.Run; Display.Run])
             (Display.initial example_st) in
  let y := Display.run example_os
             (Display.Arrive Display.KeyRefresh :: repeat Display.Run 6) x in
  Display.auto_refresh (Display.app x) = false /\
  Display.in_flight x = 0%nat /\
  Display.cycles x = 1%nat /\
  y = x /\
  Display.cycles y = 1%nat.
Proof.
  intros x y.
  assert (Hy : y = x).
  { apply (C1_manual_refresh_gated_by_auto_refresh example_os x 5); reflexivity. }
  split; [reflexivity |].
  split; [reflexivity |].
  split; [reflexivity |].
  split; [exact Hy |].
  rewrite Hy. reflexivity.
Defined.

Module CycleFacts.
Import Display.

(** One refresh, from its dispatch to the removal of the indicator. *)
Lemma refresh_cycle (o : OS) (x : sched) (t : trigger) (queue : list trigger) :
  current x = [] ->
  pending x = t :: queue ->
  t = KeyRefresh \/ t = TimerFire ->
  auto_refresh (app x) = true ->
  in_flight x = 0%nat ->
  let y := run o (repeat Run 5) x in
  cycles y = S (cycles x) /\ in_flight y = 0%nat /\ current y = [] /\ pending y = queue.
Proof.
  destruct x as [a h c p n k]. cbn [current pending app in_flight cycles].
  intros -> -> Ht Ha ->.
  assert (Hh : handler t a = [MountLoading; CallCollect; ReturnCollect; RemoveLoading]).
  { destruct Ht as [-> | ->]; cbn [handler]; unfold action_refresh, refresh_data;
      rewrite Ha; reflexivity. }
  cbn [repeat run fold_left step current pending app host in_flight cycles].
  rewrite Hh.
  cbn [exec current pending app host in_flight cycles].
  destruct (read_system_data o h) as [r s'].
  cbn [exec current pending app host in_flight cycles Nat.pred].
  repeat split; reflexivity.
Qed.

End CycleFacts.

(** C2, as the source has it. In every reachable state at most one call
    of [read_system_data] is in flight, because no handler suspends
    between entering and leaving it. The source has no in-flight guard: a
    trigger delivered while a cycle is in flight is not dropped but stays
    pending, and when its turn comes with auto-refresh enabled, it runs a
    complete cycle of its own, which produces a further Snapshot. *)
Theorem C2_one_in_flight_pending_trigger_runs (o : OS) (s0 : st)
    (inputs : list Display.input) (t : Display.trigger) (queue : list Display.trigger) :
  let x := Display.run o inputs (Display.initial s0) in
  (Display.in_flight x <= 1)%nat /\
  (t <> Display.TimerFire \/ Display.interval_set (Display.app x) = true ->
   Display.pending (Display.step o (Display.Arrive t) x) = Display.pending x ++ [t] /\
   Display.in_flight (Display.step o (Display.Arrive t) x) = Display.in_flight x) /\
  (Display.current x = [] ->
   Display.pending x = t :: queue ->
   t = Display.KeyRefresh \/ t = Display.TimerFire ->
   Display.auto_refresh (Display.app x) = true ->
   let y := Display.run o (repeat Display.Run 5) x in
   Display.cycles y = S (Display.cycles x) /\
   Display.in_flight y = 0%nat /\
   Display.current y = [] /\
   Display.pending y = queue).
Proof.
  intros x.
  assert (Hinv : Display.inv x).
  { apply DisplayFacts.inv_run. apply DisplayFacts.inv_initial. }
  split; [exact (DisplayFacts.serial_le _ _ Hinv) |].
  split.
  - intros Ht. destruct t; cbn [Display.step Display.deliver Display.pending Display.in_flight];
      try (split; reflexivity).
    destruct Ht as [Ht | Ht]; [congruence |]. rewrite Ht. split; reflexivity.
  - intros Hc Hp Ht Ha. apply (CycleFacts.refresh_cycle o x t queue); try assumption.
    unfold Display.inv in Hinv. rewrite Hc in Hinv. cbn in Hinv.
    apply Nat.eqb_eq in Hinv. exact Hinv.
Qed.

Lemma C2_one_in_flight_pending_trigger_runs_witness :
  let x1 := Display.run example_os (repeat Display.Run 3) (Display.initial example_st) in
  let x2 := Display.run example_os
              (repeat Display.Run 3 ++ Display.Arrive Display.KeyRefresh :: repeat Display.Run 4)
              (Display.initial example_st) in
  Display.in_flight x1 = 1%nat /\
  Display.pending (Display.step example_os (Display.Arrive Display.KeyRefresh) x1)
    = Display.pending x1 ++ [Display.KeyRefresh] /\
  Display.cycles x2 = 1%nat /\
  Display.cycles (Display.run example_os (repeat Display.Run 5) x2) = 2%nat.
Proof.
  intros x1 x2.
  split; [reflexivity |].
  split.
  - apply (C2_one_in_flight_pending_trigger_runs example_os example_st
             (repeat Display.Run 3) Display.KeyRefresh []).
    left. discriminate.
  - split; [reflexivity |].
    destruct (C2_one_in_flight_pending_trigger_runs example_os example_st
                (repeat Display.Run 3 ++ Display.Arrive Display.KeyRefresh :: repeat Display.Run 4)
                Display.KeyRefresh []) as (_ & _ & H).
    destruct H as (Hc & _).
    + reflexivity.
    + reflexivity.
    + left. reflexivity.
    + reflexivity.
    + exact Hc.
Defined.

(** C2, as stated, fails: the key [r] pressed while the first cycle is in
    flight is not dropped. With it the event loop completes two cycles,
    without it one. *)
Lemma C2_counterexample :
  let x := Display.run example_os (repeat Display.Run 3) (Display.initial example_st) in
  Display.in_flight x = 1%nat /\
  Display.cycles (Display.run example_os (repeat Display.Run 9)
                    (Display.step example_os (Display.Arrive Display.KeyRefresh) x)) = 2%nat /\
  Display.cycles (Display.run example_os (repeat Display.Run 9) x) = 1%nat.
Proof.
  intros x. split; [reflexivity |]. split; reflexivity.
Qed.

(** * Further properties of the collectors *)

(** ** Each collector, run from any state *)

Section Runs.
Variable o : OS.

Lemma get_network_interfaces_full (s : st) :
  get_network_interfaces o s =
  (match net_if_addrs o with
   | Ok items => interfaces_after o items ∅
   | Raise e => Raise e
   end, tick o QNetIfAddrs s).
Proof.
  unfold get_network_interfaces, bind, os_call, tick.
  destruct (net_if_addrs o) as [items | e]; [| reflexivity].
  apply interfaces_loop_run.
Qed.

Lemma get_cpu_frequency_full (s : st) :
  get_cpu_frequency o s = (Ok (frequency_of o), tick o QCpuFreq s).
Proof.
  unfold get_cpu_frequency, try_except, bind, os_call, frequency_of, tick, ret, raise.
  destruct (cpu_freq o) as [[f |] | e]; reflexivity.
Qed.

Lemma partitions_loop_full (ps : list sdiskpart) (disks : gmap string DiskInfo) (s : st) :
  partitions_loop o ps disks s =
  (Ok (disks_after o ps disks),
   ticks o (map (fun p => QDiskUsage (mountpoint p)) ps) s).
Proof.
  revert disks s. induction ps as [| p ps IH]; intros disks s; [reflexivity |].
  cbn [partitions_loop disks_after map ticks fold_left].
  unfold bind at 1, try_except, bind, os_call, ret.
  destruct (disk_usage o (mountpoint p)) as [u | e]; cbn [any_exception]; apply IH.
Qed.

Lemma get_disk_info_full (s : st) :
  get_disk_info o s =
  match disk_partitions o with
  | Ok ps => (Ok (disks_after o ps ∅),
              ticks o (QDiskPartitions :: map (fun p => QDiskUsage (mountpoint p)) ps) s)
  | Raise e => (Raise e, tick o QDiskPartitions s)
  end.
Proof.
  unfold get_disk_info, bind, os_call.
  destruct (disk_partitions o) as [ps | e]; [| reflexivity].
  apply partitions_loop_full.
Qed.

Lemma get_running_processes_full (s : st) :
  get_running_processes o s =
  (match process_iter o with
   | Ok procs => match fatal procs with
                 | Some e => Raise e
                 | None => Ok (entries procs)
                 end
   | Raise e => Raise e
   end, tick o QProcessIter s).
Proof.
  destruct (process_iter o) as [procs | e] eqn:E.
  - apply get_running_processes_run. exact E.
  - unfold get_running_processes, bind, os_call. rewrite E. reflexivity.
Qed.

End Runs.

Lemma log_ticks (o : OS) (qs : list query) (s : st) :
  log (ticks o qs s) = log s ++ qs.
Proof.
  revert s. induction qs as [| q qs IH]; intros s; cbn [ticks fold_left].
  - rewrite app_nil_r. reflexivity.
  - change (fold_left _ qs ?z) with (ticks o qs z). rewrite IH.
    cbn [tick log]. rewrite <- app_assoc. reflexivity.
Qed.

Lemma clock_ticks (o : OS) (qs : list query) (s : st) :
  clock (ticks o qs s) = clock s + elapsed o qs.
Proof.
  revert s. induction qs as [| q qs IH]; intros s; cbn [ticks fold_left].
  - cbn. lia.
  - change (fold_left _ qs ?z) with (ticks o qs z). rewrite IH.
    cbn [tick clock elapsed foldr]. unfold elapsed. lia.
Qed.

(** ** A whole cycle *)

Lemma ticks_app (o : OS) (qs1 qs2 : list query) (s : st) :
  ticks o (qs1 ++ qs2) s = ticks o qs2 (ticks o qs1 s).
Proof. unfold ticks. apply fold_left_app. Qed.

Ltac call_inv H :=
  let a := fresh "a" in
  let s := fresh "s" in
  let Hq := fresh "Hq" in
  let Hs := fresh "Hs" in
  apply bind_ok_inv in H; destruct H as (a & s & Hq & H);
  apply os_call_ok_inv in Hq; destruct Hq as [Hq Hs];
  change (mk_st (clock ?z + Z.of_N (duration ?o ?q)) (log ?z ++ [?q])) with (tick o q z) in Hs;
  subst s.

Lemma octets_run (o : OS) (s : st) :
  comprehension
    (fun elements =>
       node <- os_call o QGetnode (Ok (uuid_getnode o)) ;;
       ret (Mac.format_02x (Z.land (Z.shiftr node elements) 255)))
    (Mac.py_range 0 (2 * 6) 2) s
  = (Ok (map (fun elements => Mac.format_02x (Z.land (Z.shiftr (uuid_getnode o) elements) 255))
             [0; 2; 4; 6; 8; 10]),
     ticks o (repeat QGetnode 6) s).
Proof. reflexivity. Qed.

(** What a cycle that returns normally has read, and in which state it
    leaves the host. *)
Lemma collect_ok_inv (o : OS) (s s' : st) (d : SystemData) :
  collect o s = (Ok d, s') ->
  exists h items ps all procs vm,
    platform_system o = Ok (system (platform d)) /\
    platform_release o = Ok (release (platform d)) /\
    platform_version o = Ok (version (platform d)) /\
    platform_machine o = Ok (machine (platform d)) /\
    platform_processor o = Ok (processor (platform d)) /\
    platform_architecture o = Ok (architecture (platform d)) /\
    python_version (platform d) = sys_version o /\
    socket_gethostname o = Ok h /\ hostname (network d) = h /\
    socket_gethostbyname o h = Ok (ip_address (network d)) /\
    mac_address (network d) = Mac.mac_address (uuid_getnode o) /\
    net_if_addrs o = Ok items /\
    interfaces_after o items ∅ = Ok (network_interfaces (network d)) /\
    cpu_count o false = Ok (physical_cores (cpu (hardware d))) /\
    cpu_count o true = Ok (total_cores (cpu (hardware d))) /\
    max_frequency (cpu (hardware d)) = frequency_of o /\
    cpu_percent o = Ok (current_usage (cpu (hardware d))) /\
    virtual_memory o = Ok vm /\
    memory (hardware d) = {| mem_total := vm_total vm; mem_available := vm_available vm;
                             mem_used := vm_used vm; mem_percent := vm_percent vm |} /\
    disk_partitions o = Ok ps /\
    disk (hardware d) = disks_after o ps ∅ /\
    pids o = Ok all /\
    total_processes (process d) = Z.of_nat (length all) /\
    process_iter o = Ok procs /\ fatal procs = None /\
    running_processes (process d) = entries procs /\
    timestamp d = isoformat o (clock (ticks o (cycle_queries ps) s)) /\
    s' = tick o QNow (ticks o (cycle_queries ps) s).
Proof.
  intros H. unfold collect in H.
  apply bind_ok_inv in H. destruct H as (pl & s1 & H1 & H).
  apply bind_ok_inv in H. destruct H as (nw & s2 & H2 & H).
  apply bind_ok_inv in H. destruct H as (hw & s3 & H3 & H).
  apply bind_ok_inv in H. destruct H as (pr & s4 & H4 & H).
  apply bind_ok_inv in H. destruct H as (now & s5 & H5 & H).
  unfold datetime_now in H5. inversion H5; subst now s5; clear H5.
  unfold ret in H. inversion H; subst d s'; clear H.
  cbn [platform network hardware process timestamp].
  (* platform *)
  unfold platform_data in H1. do 6 call_inv H1.
  unfold ret in H1. inversion H1; subst pl s1; clear H1.
  (* network *)
  pose proof (network_data_mac o _ _ _ H2) as Hmac.
  unfold network_data in H2. do 3 call_inv H2.
  apply bind_ok_inv in H2. destruct H2 as (octets & s6 & Hoct & H2).
  rewrite octets_run in Hoct. inversion Hoct; subst octets s6; clear Hoct.
  apply bind_ok_inv in H2. destruct H2 as (ifs & s7 & Hifs & H2).
  rewrite get_network_interfaces_full in Hifs.
  destruct (net_if_addrs o) as [items | e] eqn:Eitems; [| discriminate Hifs].
  inversion Hifs as [[Hia Hs7]]; clear Hifs. subst s7.
  unfold ret in H2. inversion H2; subst nw s2; clear H2.
  (* hardware *)
  unfold hardware_data in H3.
  apply bind_ok_inv in H3. destruct H3 as (cp & s8 & Hcpu & H3).
  unfold cpu_data in Hcpu. do 2 call_inv Hcpu.
  apply bind_ok_inv in Hcpu. destruct Hcpu as (fr & s9 & Hfr & Hcpu).
  rewrite get_cpu_frequency_full in Hfr. inversion Hfr; subst fr s9; clear Hfr.
  call_inv Hcpu. unfold ret in Hcpu. inversion Hcpu; subst cp s8; clear Hcpu.
  apply bind_ok_inv in H3. destruct H3 as (mm & s10 & Hmem & H3).
  unfold memory_data in Hmem. call_inv Hmem.
  unfold ret in Hmem. inversion Hmem; subst mm s10; clear Hmem.
  apply bind_ok_inv in H3. destruct H3 as (dk & s11 & Hdk & H3).
  rewrite get_disk_info_full in Hdk.
  destruct (disk_partitions o) as [ps | e] eqn:Eps; [| discriminate Hdk].
  inversion Hdk; subst dk s11; clear Hdk.
  unfold ret in H3. inversion H3; subst hw s3; clear H3.
  (* process *)
  unfold process_data in H4. call_inv H4.
  apply bind_ok_inv in H4. destruct H4 as (rp & s12 & Hrp & H4).
  rewrite get_running_processes_full in Hrp.
  destruct (process_iter o) as [procs | e] eqn:Eprocs; [| discriminate Hrp].
  destruct (fatal procs) as [e |] eqn:Efatal; [discriminate Hrp |].
  inversion Hrp; subst rp s12; clear Hrp.
  unfold ret in H4. inversion H4; subst pr s4; clear H4.
  cbn [system release version machine processor architecture python_version
       hostname ip_address mac_address network_interfaces
       cpu memory disk physical_cores total_cores max_frequency current_usage
       total_processes running_processes] in *.
  match goal with Hh : socket_gethostname o = Ok ?h |- _ => exists h end.
  match goal with Hv : virtual_memory o = Ok ?v |- _ =>
    match goal with Hp : pids o = Ok ?l |- _ => exists items, ps, l, procs, v end end.
  repeat (split; [first [assumption | reflexivity | congruence] |]).
  unfold cycle_queries. rewrite !ticks_app. split; reflexivity.
Qed.

Ltac reduce_cycle :=
  cbv [bind os_call ret fst is_ok andb comprehension first_error clock log tick].
Ltac query_case r := destruct r; reduce_cycle; [| reflexivity].

Lemma collect_is_ok (o : OS) (s : st) :
  is_ok (value (collect o s)) = collectable o.
Proof.
  unfold value, collect, platform_data, network_data, hardware_data, cpu_data,
    memory_data, process_data, collectable, datetime_now.
  rewrite MacFacts.py_range_0_12_2.
  reduce_cycle.
  query_case (platform_system o).
  query_case (platform_release o).
  query_case (platform_version o).
  query_case (platform_machine o).
  query_case (platform_processor o).
  query_case (platform_architecture o).
  destruct (socket_gethostname o) as [h | e]; reduce_cycle; [| reflexivity].
  query_case (socket_gethostbyname o h).
  rewrite get_network_interfaces_full.
  destruct (net_if_addrs o) as [items | e]; reduce_cycle; [| reflexivity].
  query_case (interfaces_after o items ∅).
  query_case (cpu_count o false).
  query_case (cpu_count o true).
  rewrite get_cpu_frequency_full. reduce_cycle.
  query_case (cpu_percent o).
  query_case (virtual_memory o).
  rewrite get_disk_info_full.
  query_case (disk_partitions o).
  query_case (pids o).
  rewrite get_running_processes_full.
  destruct (process_iter o) as [procs | e]; reduce_cycle; [| reflexivity].
  destruct (fatal procs); reflexivity.
Qed.


Lemma read_system_data_value (o : OS) (s : st) :
  value (read_system_data o s) =
  Ok match value (collect o s) with
     | Ok d => asdict d
     | Raise e => error_dict e
     end.
Proof.
  unfold read_system_data, try_except, bind, ret, value.
  destruct (collect o s) as [[d | e] s']; reflexivity.
Qed.

Lemma collectable_collect (o : OS) (s : st) :
  collectable o = true -> exists d s', collect o s = (Ok d, s').
Proof.
  rewrite <- (collect_is_ok o s). unfold value.
  destruct (collect o s) as [[d | e] s']; cbn [fst is_ok]; intros H;
    [exists d, s'; reflexivity | discriminate H].
Qed.

(** X1. A cycle returns a [SystemData] exactly when every query other
    than [cpu_freq] and [disk_usage] answers, every interface entry can
    be read and no process raises outside the three accepted classes;
    the state the cycle starts in plays no part. *)
Theorem cycle_succeeds_iff_collectable (o : OS) (s : st) :
  (exists d s', collect o s = (Ok d, s')) <-> collectable o = true.
Proof.
  rewrite <- (collect_is_ok o s). unfold value.
  destruct (collect o s) as [[d | e] s']; cbn [fst is_ok]; split.
  - reflexivity.
  - intros _. exists d, s'. reflexivity.
  - intros (d & s'' & H). discriminate H.
  - intros H. discriminate H.
Qed.

Lemma cycle_succeeds_iff_collectable_witness :
  exists d s', collect example_os example_st = (Ok d, s').
Proof.
  apply (proj2 (cycle_succeeds_iff_collectable example_os example_st)).
  reflexivity.
Defined.

Lemma addresses_of_with_optional (freq : result (option scpufreq))
    (usage : string -> result sdiskusage) (o : OS) (addresses : list raw_addr) :
  addresses_of (with_optional freq usage o) addresses = addresses_of o addresses.
Proof.
  induction addresses as [| [a | e] rest IH]; cbn [addresses_of]; [reflexivity | | reflexivity].
  rewrite IH. reflexivity.
Qed.

Lemma interfaces_after_with_optional (freq : result (option scpufreq))
    (usage : string -> result sdiskusage) (o : OS)
    (items : list (string * list raw_addr)) (m : gmap string (list NetworkAddress)) :
  interfaces_after (with_optional freq usage o) items m = interfaces_after o items m.
Proof.
  revert m. induction items as [| [i a] rest IH]; intros m; cbn [interfaces_after];
    [reflexivity |].
  rewrite addresses_of_with_optional. destruct (addresses_of o a); [apply IH | reflexivity].
Qed.

Lemma collectable_with_optional (freq : result (option scpufreq))
    (usage : string -> result sdiskusage) (o : OS) :
  collectable (with_optional freq usage o) = collectable o.
Proof.
  unfold collectable.
  cbn [with_optional platform_system platform_release platform_version platform_machine
       platform_processor platform_architecture socket_gethostname socket_gethostbyname
       net_if_addrs cpu_count cpu_percent virtual_memory disk_partitions pids process_iter].
  destruct (net_if_addrs o) as [items | e]; [| reflexivity].
  rewrite interfaces_after_with_optional. reflexivity.
Qed.

(** X2. Whether a cycle returns a [SystemData] does not depend on the
    frequency query or on any disk-usage query: replacing their answers,
    by failures or by anything else, turns no successful cycle into a
    failed one and no failed cycle into a successful one. *)
Theorem optional_queries_never_fail_a_cycle (o : OS) (s : st)
    (freq : result (option scpufreq)) (usage : string -> result sdiskusage) :
  is_ok (value (collect (with_optional freq usage o) s)) = is_ok (value (collect o s)).
Proof.
  rewrite !collect_is_ok. apply collectable_with_optional.
Qed.

Lemma getitem_asdict_memory (d : SystemData) :
  exists hw mem,
    getitem (asdict d) "hardware" = Some hw /\
    getitem hw "memory" = Some mem /\
    getitem mem "total" = Some (PInt (mem_total (memory (hardware d)))) /\
    getitem mem "available" = Some (PInt (mem_available (memory (hardware d)))) /\
    getitem mem "used" = Some (PInt (mem_used (memory (hardware d)))) /\
    getitem mem "percent" = Some (PFloat (mem_percent (memory (hardware d)))).
Proof.
  exists (dict_HardwareData (hardware d)), (dict_MemoryData (memory (hardware d))).
  repeat split; reflexivity.
Qed.

(** X3. On a host where the cycle succeeds, the dictionary the manager
    returns reports what the host answered: under
    [["hardware"]["memory"]] the four numbers of [virtual_memory()],
    under [["process"]["total_processes"]] the length of [pids()], under
    [["network"]["hostname"]] the host name, and under [["timestamp"]]
    the rendering of an instant not before the start of the cycle. *)
Theorem snapshot_reports_host_answers (o : OS) (s : st)
    (vm : svmem) (all : list Z) (h : string) :
  collectable o = true ->
  virtual_memory o = Ok vm ->
  pids o = Ok all ->
  socket_gethostname o = Ok h ->
  exists v hw mem pr nw t,
    value (read_system_data o s) = Ok v /\
    getitem v "hardware" = Some hw /\
    getitem hw "memory" = Some mem /\
    getitem mem "total" = Some (PInt (vm_total vm)) /\
    getitem mem "available" = Some (PInt (vm_available vm)) /\
    getitem mem "used" = Some (PInt (vm_used vm)) /\
    getitem mem "percent" = Some (PFloat (vm_percent vm)) /\
    getitem v "process" = Some pr /\
    getitem pr "total_processes" = Some (PInt (Z.of_nat (length all))) /\
    getitem v "network" = Some nw /\
    getitem nw "hostname" = Some (PStr h) /\
    getitem v "timestamp" = Some (PStr (isoformat o t)) /\
    clock s <= t.
Proof.
  intros Hc Hvm Hpids Hh.
  destruct (collectable_collect o s Hc) as (d & s' & Hd).
  destruct (collect_ok_inv o s s' d Hd)
    as (h' & items & ps & all' & procs & vm' & Hsys & Hrel & Hver & Hmach & Hproc & Harch & Hpy & Hname & Hhost & Hip & Hmac & Hitems & Hifs & Hphys & Htotal & Hfreq & Husage & Hvm' & Hmem & Hps & Hdisk & Hall & Htot & Hiter & Hfatal & Hrun & Hts & Hs').
  assert (Evm : vm' = vm) by congruence. assert (Eall : all' = all) by congruence.
  assert (Eh : hostname (network d) = h) by congruence.
  rewrite Evm in Hmem. rewrite Eall in Htot.
  clear Hsys Hrel Hver Hmach Hproc Harch Hpy Hname Hhost Hip Hmac Hitems Hifs Hphys Htotal
    Hfreq Husage Hvm' Hps Hdisk Hall Hiter Hfatal Hrun Hs' Evm Eall.
  destruct (getitem_asdict_memory d) as (hw & mem & Hhw & Hm & Ht & Ha & Hu & Hp).
  rewrite Hmem in Ht, Ha, Hu, Hp. cbn [mem_total mem_available mem_used mem_percent] in *.
  exists (asdict d), hw, mem, (dict_ProcessData (process d)), (dict_NetworkData (network d)),
    (clock (ticks o (cycle_queries ps) s)).
  rewrite read_system_data_value. unfold value. rewrite Hd. cbn [fst].
  split; [reflexivity |].
  do 6 (split; [assumption |]).
  split; [reflexivity |].
  split; [cbn; rewrite Htot; reflexivity |].
  split; [reflexivity |].
  split; [cbn; rewrite Eh; reflexivity |].
  split; [cbn; rewrite Hts; reflexivity |].
  rewrite clock_ticks. pose proof (elapsed_nonneg o (cycle_queries ps)). lia.
Qed.

Lemma snapshot_reports_host_answers_witness :
  exists v hw mem pr nw t,
    value (read_system_data example_os example_st) = Ok v /\
    getitem v "hardware" = Some hw /\
    getitem hw "memory" = Some mem /\
    getitem mem "total" = Some (PInt 16000000000) /\
    getitem mem "available" = Some (PInt 8000000000) /\
    getitem mem "used" = Some (PInt 8000000000) /\
    getitem mem "percent" = Some (PFloat (50 # 1)%Q) /\
    getitem v "process" = Some pr /\
    getitem pr "total_processes" = Some (PInt 3) /\
    getitem v "network" = Some nw /\
    getitem nw "hostname" = Some (PStr "host") /\
    getitem v "timestamp" = Some (PStr (isoformat example_os t)) /\
    100 <= t.
Proof.
  apply (snapshot_reports_host_answers example_os example_st
           {| vm_total := 16000000000; vm_available := 8000000000;
              vm_used := 8000000000; vm_percent := (50 # 1)%Q |}
           [1; 2; 7] "host"); reflexivity.
Defined.



(** X5. [get_cpu_frequency] never raises: it returns [None] when
    [psutil.cpu_freq()] raises and when it returns [None], and the triple
    of current, minimum and maximum otherwise. *)
Theorem cpu_frequency_absent_not_fatal (o : OS) (s : st) :
  (forall e, cpu_freq o = Raise e -> value (get_cpu_frequency o s) = Ok None) /\
  (cpu_freq o = Ok None -> value (get_cpu_frequency o s) = Ok None) /\
  (forall f, cpu_freq o = Ok (Some f) ->
     value (get_cpu_frequency o s)
     = Ok (Some {| current := freq_current f; min_frequency := freq_min f;
                   max_frequency_ := freq_max f |})).
Proof.
  rewrite get_cpu_frequency_full. unfold value, frequency_of. cbn [fst].
  split; [| split].
  - intros e ->. reflexivity.
  - intros ->. reflexivity.
  - intros f ->. reflexivity.
Qed.

Lemma cpu_frequency_absent_not_fatal_witness :
  value (get_cpu_frequency example_os example_st) = Ok None /\
  value (get_cpu_frequency
           (with_optional (Raise permission_denied) (disk_usage example_os) example_os)
           example_st) = Ok None /\
  value (get_cpu_frequency
           (with_optional (Ok (Some (mk_scpufreq (2400 # 1) (800 # 1) (3600 # 1))%Q))
              (disk_usage example_os) example_os)
           example_st)
  = Ok (Some {| current := (2400 # 1)%Q; min_frequency := (800 # 1)%Q;
                max_frequency_ := (3600 # 1)%Q |}).
Proof.
  split; [| split].
  - apply (proj1 (proj2 (cpu_frequency_absent_not_fatal example_os example_st))).
    reflexivity.
  - apply (proj1 (cpu_frequency_absent_not_fatal
                    (with_optional (Raise permission_denied) (disk_usage example_os) example_os)
                    example_st) permission_denied).
    reflexivity.
  - apply (proj2 (proj2 (cpu_frequency_absent_not_fatal
                    (with_optional (Ok (Some (mk_scpufreq (2400 # 1) (800 # 1) (3600 # 1))%Q))
                       (disk_usage example_os) example_os)
                    example_st)) (mk_scpufreq (2400 # 1) (800 # 1) (3600 # 1))%Q).
    reflexivity.
Defined.

(** ** More on disks *)





(** X7. [get_disk_info] queries the usage of every enumerated partition,
    once and in enumeration order, whether or not earlier queries failed:
    a failure ends only the turn of its own partition. When the
    enumeration itself fails, that exception leaves the function. *)
Theorem every_partition_is_queried (o : OS) (s : st) :
  (forall ps, disk_partitions o = Ok ps ->
     log (snd (get_disk_info o s))
     = log s ++ QDiskPartitions :: map (fun p => QDiskUsage (mountpoint p)) ps) /\
  (forall e, disk_partitions o = Raise e ->
     value (get_disk_info o s) = Raise e /\
     log (snd (get_disk_info o s)) = log s ++ [QDiskPartitions]).
Proof.
  rewrite get_disk_info_full. split.
  - intros ps ->. cbn [snd]. apply log_ticks.
  - intros e ->. split; reflexivity.
Qed.

Lemma every_partition_is_queried_witness :
  log (snd (get_disk_info os_sdb1_unreadable example_st))
  = [QDiskPartitions; QDiskUsage "/"; QDiskUsage "/mnt"] /\
  value (get_disk_info (with_disks (Raise permission_denied) (disk_usage example_os)
                          example_os) example_st)
  = Raise permission_denied.
Proof.
  split.
  - apply (proj1 (every_partition_is_queried os_sdb1_unreadable example_st) [sda1; sdb1]).
    reflexivity.
  - apply (proj2 (every_partition_is_queried
                    (with_disks (Raise permission_denied) (disk_usage example_os) example_os)
                    example_st) permission_denied).
    reflexivity.
Defined.

(** ** More on processes *)

Lemma fatal_app (l1 l2 : list (result proc_info)) :
  fatal (l1 ++ l2) = match fatal l1 with Some e => Some e | None => fatal l2 end.
Proof.
  induction l1 as [| [i | e] l1 IH]; cbn [app fatal]; [reflexivity | exact IH |].
  destruct (process_gone e); [exact IH | reflexivity].
Qed.

Lemma entries_app (l1 l2 : list (result proc_info)) :
  entries (l1 ++ l2) = entries l1 ++ entries l2.
Proof.
  induction l1 as [| [i | e] l1 IH]; cbn [app entries]; [reflexivity | | exact IH].
  rewrite IH. reflexivity.
Qed.

(** X8. A process that raises [NoSuchProcess], [AccessDenied] or
    [ZombieProcess] during the iteration is dropped and nothing else
    changes: the call returns what it returns for the iteration without
    that process, the entries of the others in the same order. *)
Theorem gone_process_leaves_the_others (o o' : OS) (s : st)
    (l1 l2 : list (result proc_info)) (e : exn) :
  process_iter o = Ok (l1 ++ Raise e :: l2) ->
  process_iter o' = Ok (l1 ++ l2) ->
  process_gone e = true ->
  value (get_running_processes o s) = value (get_running_processes o' s) /\
  (fatal (l1 ++ l2) = None ->
   value (get_running_processes o s) = Ok (entries l1 ++ entries l2)).
Proof.
  intros Ho Ho' He.
  rewrite (get_running_processes_run o _ s Ho), (get_running_processes_run o' _ s Ho').
  unfold value. cbn [fst].
  assert (Hf : fatal (l1 ++ Raise e :: l2) = fatal (l1 ++ l2)).
  { rewrite !fatal_app. cbn [fatal]. rewrite He. reflexivity. }
  assert (Hen : entries (l1 ++ Raise e :: l2) = entries (l1 ++ l2)).
  { rewrite !entries_app. reflexivity. }
  rewrite Hf, Hen. split; [reflexivity |].
  intros ->. rewrite entries_app. reflexivity.
Qed.

(** X9. An exception of any other class raised for a process ends the
    enumeration with that exception, and so does a failure of
    [process_iter] itself: no list is returned. *)
Theorem other_process_error_is_fatal (o : OS) (s : st) :
  (forall l1 l2 e,
     process_iter o = Ok (l1 ++ Raise e :: l2) ->
     fatal l1 = None ->
     process_gone e = false ->
     value (get_running_processes o s) = Raise e) /\
  (forall e, process_iter o = Raise e -> value (get_running_processes o s) = Raise e).
Proof.
  rewrite get_running_processes_full. unfold value. cbn [fst]. split.
  - intros l1 l2 e -> Hl1 He. rewrite fatal_app, Hl1. cbn [fatal]. rewrite He. reflexivity.
  - intros e ->. reflexivity.
Qed.

Lemma gone_process_leaves_the_others_witness :
  value (get_running_processes example_os example_st)
  = value (get_running_processes
             (with_processes (Ok [example_proc 1 "init" (Some "root");
                                  example_proc 7 "kthread" None]) example_os)
             example_st) /\
  (fatal ([example_proc 1 "init" (Some "root")] ++ [example_proc 7 "kthread" None]) = None ->
   value (get_running_processes example_os example_st)
   = Ok (entries [example_proc 1 "init" (Some "root")]
         ++ entries [example_proc 7 "kthread" None])).
Proof.
  apply (gone_process_leaves_the_others example_os
           (with_processes (Ok [example_proc 1 "init" (Some "root");
                                example_proc 7 "kthread" None]) example_os)
           example_st
           [example_proc 1 "init" (Some "root")]
           [example_proc 7 "kthread" None]
           (mk_exn NoSuchProcess "process no longer exists")); reflexivity.
Defined.

Lemma other_process_error_is_fatal_witness :
  value (get_running_processes
           (with_processes (Ok [example_proc 1 "init" (Some "root");
                                Raise runtime_error;
                                example_proc 7 "kthread" None]) example_os)
           example_st) = Raise runtime_error /\
  value (get_running_processes (with_processes (Raise permission_denied) example_os)
           example_st) = Raise permission_denied.
Proof.
  split.
  - apply (proj1 (other_process_error_is_fatal
                    (with_processes (Ok [example_proc 1 "init" (Some "root");
                                         Raise runtime_error;
                                         example_proc 7 "kthread" None]) example_os)
                    example_st)
             [example_proc 1 "init" (Some "root")] [example_proc 7 "kthread" None]
             runtime_error); reflexivity.
  - apply (proj2 (other_process_error_is_fatal
                    (with_processes (Raise permission_denied) example_os) example_st)
             permission_denied).
    reflexivity.
Defined.

(** ** Order and time of a cycle *)

Lemma elapsed_elem (o : OS) (q : query) (l : list query) :
  q ∈ l -> Z.of_N (duration o q) <= elapsed o l.
Proof.
  induction l as [| a l IH]; intros H; [inversion H |].
  apply elem_of_cons in H. unfold elapsed in *. cbn [foldr].
  destruct H as [-> | H].
  - pose proof (elapsed_nonneg o l) as Hl. unfold elapsed in Hl. lia.
  - specialize (IH H). lia.
Qed.

Lemma cpu_percent_in_cycle (ps : list sdiskpart) : QCpuPercent ∈ cycle_queries ps.
Proof.
  unfold cycle_queries. apply elem_of_app. left.
  do 19 apply list_elem_of_further. apply list_elem_of_here.
Qed.

Lemma collect_ok_state (o : OS) (s s' : st) (d : SystemData) :
  collect o s = (Ok d, s') ->
  exists ps,
    disk_partitions o = Ok ps /\
    timestamp d = isoformat o (clock (ticks o (cycle_queries ps) s)) /\
    s' = tick o QNow (ticks o (cycle_queries ps) s).
Proof.
  intros H.
  destruct (collect_ok_inv o s s' d H)
    as (h & items & ps & all & procs & vm & Hsys & Hrel & Hver & Hmach & Hproc & Harch & Hpy & Hname & Hhost & Hip & Hmac & Hitems & Hifs & Hphys & Htotal & Hfreq & Husage & Hvm' & Hmem & Hps & Hdisk & Hall & Htot & Hiter & Hfatal & Hrun & Hts & Hs').
  exists ps. split; [exact Hps |]. split; [exact Hts | exact Hs'].
Qed.

(** X10. The queries of a cycle that returns normally are issued in one
    fixed order: the six platform queries, the host name (twice) and its
    address, the node identifier (six times), the interfaces, the two
    core counts, the frequency, the CPU sample, the memory, the
    partitions and the usage of each, the pids, the process iteration,
    and last the clock. The cycle takes the time of these queries. *)
Theorem cycle_issues_queries_in_fixed_order (o : OS) (s s' : st) (d : SystemData) :
  collect o s = (Ok d, s') ->
  exists ps,
    disk_partitions o = Ok ps /\
    log s' = log s ++ cycle_queries ps ++ [QNow] /\
    clock s' = clock s + elapsed o (cycle_queries ps ++ [QNow]) /\
    clock s + Z.of_N (duration o QCpuPercent) <= clock s'.
Proof.
  intros H.
  destruct (collect_ok_state o s s' d H) as (ps & Hps & Hts & Hs').
  exists ps. split; [exact Hps |]. subst s'.
  cbn [tick log clock]. rewrite log_ticks, clock_ticks, elapsed_app, <- app_assoc.
  split; [reflexivity |].
  split; [unfold elapsed at 3; cbn [foldr]; lia |].
  pose proof (elapsed_elem o QCpuPercent _ (cpu_percent_in_cycle ps)). lia.
Qed.

Lemma cycle_issues_queries_in_fixed_order_witness :
  exists d s' ps,
    collect example_os example_st = (Ok d, s') /\
    disk_partitions example_os = Ok ps /\
    log s' = log example_st ++ cycle_queries ps ++ [QNow] /\
    clock example_st + 1 <= clock s'.
Proof.
  destruct (collect example_os example_st) as [[d | e] s'] eqn:E;
    [| vm_compute in E; discriminate E].
  destruct (cycle_issues_queries_in_fixed_order example_os example_st s' d E)
    as (ps & Hps & Hlog & _ & Hclock).
  exists d, s', ps.
  split; [reflexivity |]. split; [exact Hps |]. split; [exact Hlog | exact Hclock].
Defined.

(** X11. Of two cycles run one after the other that both return
    normally, the second carries the later instant: its time stamp is
    that of an instant at least one CPU sampling interval (and one clock
    reading) after the instant of the first. *)
Theorem consecutive_timestamps_increase (o o' : OS) (s s1 s2 : st) (d1 d2 : SystemData) :
  collect o s = (Ok d1, s1) ->
  collect o' s1 = (Ok d2, s2) ->
  exists t1 t2,
    timestamp d1 = isoformat o t1 /\
    timestamp d2 = isoformat o' t2 /\
    t1 + Z.of_N (duration o QNow) + Z.of_N (duration o' QCpuPercent) <= t2.
Proof.
  intros H1 H2.
  destruct (collect_ok_state o s s1 d1 H1) as (ps & Hps & Ht1 & Hs1).
  destruct (collect_ok_state o' s1 s2 d2 H2) as (ps' & Hps' & Ht2 & Hs2).
  exists (clock (ticks o (cycle_queries ps) s)), (clock (ticks o' (cycle_queries ps') s1)).
  split; [exact Ht1 |]. split; [exact Ht2 |].
  subst s1. rewrite (clock_ticks o' (cycle_queries ps')). cbn [tick clock].
  pose proof (elapsed_elem o' QCpuPercent _ (cpu_percent_in_cycle ps')). lia.
Qed.

Lemma consecutive_timestamps_increase_witness :
  exists d1 s1 d2 s2 t1 t2,
    collect example_os example_st = (Ok d1, s1) /\
    collect example_os s1 = (Ok d2, s2) /\
    timestamp d1 = isoformat example_os t1 /\
    timestamp d2 = isoformat example_os t2 /\
    t1 + 1 <= t2.
Proof.
  destruct (collect example_os example_st) as [[d1 | e] s1] eqn:E1;
    [| vm_compute in E1; discriminate E1].
  destruct (collect example_os s1) as [[d2 | e] s2] eqn:E2.
  - destruct (consecutive_timestamps_increase example_os example_os example_st s1 s2 d1 d2
                E1 E2) as (t1 & t2 & H1 & H2 & Hle).
    exists d1, s1, d2, s2, t1, t2.
    split; [reflexivity |]. split; [exact E2 |]. split; [exact H1 |].
    split; [exact H2 |]. cbn in Hle. lia.
  - exfalso. pose proof (collect_is_ok example_os s1) as H. unfold value in H.
    rewrite E2 in H. discriminate H.
Defined.

(** ** The rendered address *)

Lemma octet_text_table :
  forallb (fun n => octet_text (Mac.format_02x (Z.of_nat n))) (seq 0 256) = true.
Proof. vm_compute. reflexivity. Qed.

Lemma format_02x_octet (v : Z) :
  0 <= v < 256 -> octet_text (Mac.format_02x v) = true.
Proof.
  intros Hv. pose proof octet_text_table as H.
  rewrite forallb_forall in H. specialize (H (Z.to_nat v)).
  rewrite Z2Nat.id in H by lia. apply H. apply in_seq. lia.
Qed.

Lemma land_255_range (x : Z) : 0 <= Z.land x 255 < 256.
Proof.
  change 255 with (Z.ones 8). rewrite Z.land_ones by lia.
  apply Z.mod_pos_bound. lia.
Qed.

(** X12. Whatever the node identifier, the [mac_address] field has the
    shape of a MAC address: six groups of two lower-case hexadecimal
    digits separated by colons, seventeen characters in all. *)
Theorem mac_address_has_mac_shape (node : Z) :
  mac_shape (Mac.mac_address node) = true /\
  String.length (Mac.mac_address node) = 17%nat.
Proof.
  rewrite MacFacts.mac_address_unfold.
  pose proof (format_02x_octet _ (land_255_range (Z.shiftr node 10))) as H10.
  pose proof (format_02x_octet _ (land_255_range (Z.shiftr node 8))) as H8.
  pose proof (format_02x_octet _ (land_255_range (Z.shiftr node 6))) as H6.
  pose proof (format_02x_octet _ (land_255_range (Z.shiftr node 4))) as H4.
  pose proof (format_02x_octet _ (land_255_range (Z.shiftr node 2))) as H2.
  pose proof (format_02x_octet _ (land_255_range (Z.shiftr node 0))) as H0.
  destruct (Mac.format_02x (Z.land (Z.shiftr node 10) 255)) as [| a1 [| b1 [| ? ?]]];
    try discriminate H10.
  destruct (Mac.format_02x (Z.land (Z.shiftr node 8) 255)) as [| a2 [| b2 [| ? ?]]];
    try discriminate H8.
  destruct (Mac.format_02x (Z.land (Z.shiftr node 6) 255)) as [| a3 [| b3 [| ? ?]]];
    try discriminate H6.
  destruct (Mac.format_02x (Z.land (Z.shiftr node 4) 255)) as [| a4 [| b4 [| ? ?]]];
    try discriminate H4.
  destruct (Mac.format_02x (Z.land (Z.shiftr node 2) 255)) as [| a5 [| b5 [| ? ?]]];
    try discriminate H2.
  destruct (Mac.format_02x (Z.land (Z.shiftr node 0) 255)) as [| a6 [| b6 [| ? ?]]];
    try discriminate H0.
  cbn [octet_text] in *.
  apply andb_true_iff in H10, H8, H6, H4, H2, H0.
  destruct H10 as [Ha1 Hb1], H8 as [Ha2 Hb2], H6 as [Ha3 Hb3], H4 as [Ha4 Hb4],
    H2 as [Ha5 Hb5], H0 as [Ha6 Hb6].
  split; [| reflexivity].
  cbv -[is_lower_hex].
  rewrite Ha1, Hb1, Ha2, Hb2, Ha3, Hb3, Ha4, Hb4, Ha5, Hb5, Ha6, Hb6.
  reflexivity.
Qed.

(** X13. Only the low 18 bits of the node identifier reach the
    [mac_address] field: identifiers that agree on those bits are
    rendered alike, however they differ above. *)
Theorem mac_address_collides_above_bit_17 (n1 n2 : Z) :
  n1 mod 2 ^ 18 = n2 mod 2 ^ 18 ->
  Mac.mac_address n1 = Mac.mac_address n2.
Proof.
  intros H. rewrite <- (MacFacts.mac_address_low_bits n1),
    <- (MacFacts.mac_address_low_bits n2), H. reflexivity.
Qed.

Lemma mac_address_collides_above_bit_17_witness :
  Mac.mac_address 0x001122334455 = Mac.mac_address 0xFFEEDD074455.
Proof.
  apply (mac_address_collides_above_bit_17 0x001122334455 0xFFEEDD074455).
  reflexivity.
Defined.

(** * Further properties of the refresh logic *)

Module AppFacts.
Import Display Indicator.

Lemma after_collect_fields (v : pyval) (a : App) :
  auto_refresh (after_collect v a) = auto_refresh a /\
  loading (after_collect v a) = loading a /\
  interval_set (after_collect v a) = interval_set a /\
  data (after_collect v a) = Some v.
Proof.
  unfold after_collect.
  destruct (getitem v "process") as [p |]; [| repeat split; reflexivity].
  destruct (getitem p "running_processes"); [| repeat split; reflexivity].
  destruct (getitem v "timestamp") as [[] |]; repeat split; reflexivity.
Qed.

Lemma after_collect_asdict (d : SystemData) (a : App) :
  after_collect (asdict d) a = set_last_update (timestamp d) (set_data (asdict d) a).
Proof. reflexivity. Qed.

Lemma after_collect_error (e : exn) (a : App) :
  after_collect (error_dict e) a
  = notify "Error refreshing data: 'process'" (set_data (error_dict e) a).
Proof. reflexivity. Qed.

Lemma read_system_data_cases (o : OS) (s : st) :
  exists v s', read_system_data o s = (Ok v, s') /\
               (structurally_complete v \/ failure_descriptor v) /\
               v = match value (collect o s) with
                   | Ok d => asdict d
                   | Raise e => error_dict e
                   end.
Proof.
  pose proof (read_system_data_value o s) as H. unfold value in H.
  destruct (read_system_data o s) as [r s'] eqn:E. cbn [fst] in H. subst r.
  eexists. exists s'. split; [reflexivity |]. split; [| reflexivity].
  destruct (fst (collect o s)) as [d | e].
  - left. apply asdict_complete.
  - right. exists (exn_msg e). reflexivity.
Qed.

Lemma handler_indicator (t : trigger) (a : App) : indicator_ok 0 (handler t a) = true.
Proof.
  destruct t; cbn [handler]; unfold on_mount, action_refresh, action_toggle_refresh,
    refresh_data; destruct (auto_refresh a); reflexivity.
Qed.

Lemma indicator_step (o : OS) (i : input) (x : sched) :
  indicator_inv x -> indicator_inv (step o i x).
Proof.
  unfold indicator_inv. intros H. destruct i as [t |].
  - destruct t; cbn [step]; try exact H.
    destruct (interval_set (app x)); exact H.
  - cbn [step]. destruct (current x) as [| c rest] eqn:Ec.
    + destruct (pending x) as [| t queue]; [rewrite Ec; exact H |].
      cbn [app current]. cbn [indicator_ok] in H. apply Nat.eqb_eq in H.
      rewrite H. apply handler_indicator.
    + destruct c; cbn [exec indicator_ok] in *; try exact H.
      * destruct (read_system_data o (host x)) as [[v | e] s']; cbn [app current].
        -- destruct (after_collect_fields v (app x)) as (_ & -> & _). exact H.
        -- exact H.
      * destruct (loading (app x)) as [| m]; [discriminate H | exact H].
Qed.

Lemma indicator_run (o : OS) (inputs : list input) (x : sched) :
  indicator_inv x -> indicator_inv (run o inputs x).
Proof.
  unfold run. revert x. induction inputs as [| i inputs IH]; intros x H; [exact H |].
  cbn [fold_left]. apply IH. apply indicator_step. exact H.
Qed.



Lemma timer_step (o : OS) (i : input) (x : sched) : timer_inv x -> timer_inv (step o i x).
Proof.
  unfold timer_inv. intros H. destruct i as [t |].
  - destruct t; cbn [step].
    1, 3, 4: (cbn [deliver pending app]; intros Hin;
              apply elem_of_app in Hin; destruct Hin as [Hin | Hin];
              [exact (H Hin) | apply list_elem_of_singleton in Hin; discriminate Hin]).
    destruct (interval_set (app x)) eqn:Ei.
    + intros _. cbn [deliver app]. exact Ei.
    + intros Hin. rewrite Ei. exact (H Hin).
  - cbn [step]. destruct (current x) as [| c rest] eqn:Ec.
    + destruct (pending x) as [| t queue] eqn:Ep; [rewrite Ep; exact H |].
      cbn [pending app]. intros Hin. apply H. apply list_elem_of_further. exact Hin.
    + destruct c; cbn [exec pending app interval_set set_loading set_interval notify
                         set_auto_refresh]; try exact H.
      * destruct (read_system_data o (host x)) as [[v | e] s']; cbn [pending app].
        -- destruct (after_collect_fields v (app x)) as (_ & _ & -> & _). exact H.
        -- exact H.
      * intros _. reflexivity.
Qed.

Lemma timer_run (o : OS) (inputs : list input) (x : sched) :
  timer_inv x -> timer_inv (run o inputs x).
Proof.
  unfold run. revert x. induction inputs as [| i inputs IH]; intros x H; [exact H |].
  cbn [fold_left]. apply IH. apply timer_step. exact H.
Qed.

End AppFacts.

(** X14. Handling the key [t] flips [auto_refresh], tells the user the
    new setting and does nothing else: no call of [read_system_data], the
    same data, the same host log, the same number of cycles. *)
Theorem toggle_flips_and_collects_nothing (o : OS) (x : Display.sched)
    (queue : list Display.trigger) :
  Display.current x = [] ->
  Display.pending x = Display.KeyToggle :: queue ->
  let y := Display.run o [Display.Run; Display.Run] x in
  Display.auto_refresh (Display.app y) = negb (Display.auto_refresh (Display.app x)) /\
  Display.notifications (Display.app y)
  = Display.notifications (Display.app x)
    ++ [if Display.auto_refresh (Display.app x)
        then "Auto-refresh disabled" else "Auto-refresh enabled"] /\
  Display.data (Display.app y) = Display.data (Display.app x) /\
  Display.host y = Display.host x /\
  Display.cycles y = Display.cycles x /\
  Display.in_flight y = Display.in_flight x /\
  Display.current y = [] /\
  Display.pending y = queue.
Proof.
  destruct x as [a h c p n k]. cbn [Display.current Display.pending Display.app
    Display.host Display.cycles Display.in_flight].
  intros -> ->. cbv zeta.
  cbn [Display.run fold_left Display.step Display.current Display.pending Display.app
       Display.host Display.cycles Display.in_flight Display.handler
       Display.action_toggle_refresh Display.exec Display.notify Display.set_auto_refresh
       Display.auto_refresh Display.notifications Display.data].
  destruct (Display.auto_refresh a); repeat split; reflexivity.
Qed.

Lemma toggle_flips_and_collects_nothing_witness :
  let x := Display.run example_os (repeat Display.Run 7 ++ [Display.Arrive Display.KeyToggle])
             (Display.initial example_st) in
  let y := Display.run example_os [Display.Run; Display.Run] x in
  Display.auto_refresh (Display.app x) = true /\
  Display.auto_refresh (Display.app y) = false /\
  Display.cycles y = Display.cycles x /\
  Display.host y = Display.host x.
Proof.
  intros x y.
  destruct (toggle_flips_and_collects_nothing example_os x [] eq_refl eq_refl)
    as (Ha & _ & _ & Hh & Hc & _).
  split; [reflexivity |]. split; [exact Ha |]. split; [exact Hc | exact Hh].
Defined.

(** X15. A tick of the interval timer handled while auto-refresh is
    disabled does nothing: the handler returns at once and the state is
    what it was, less the tick. *)
Theorem timer_fire_ignored_when_disabled (o : OS) (x : Display.sched)
    (queue : list Display.trigger) :
  Display.auto_refresh (Display.app x) = false ->
  Display.current x = [] ->
  Display.pending x = Display.TimerFire :: queue ->
  Display.run o [Display.Run] x
  = Display.mk_sched (Display.app x) (Display.host x) [] queue
      (Display.in_flight x) (Display.cycles x).
Proof.
  destruct x as [a h c p n k]. cbn [Display.current Display.pending Display.app
    Display.host Display.cycles Display.in_flight].
  intros Ha -> ->.
  cbn [Display.run fold_left Display.step Display.current Display.pending Display.app
       Display.host Display.cycles Display.in_flight Display.handler].
  destruct (DisplayFacts.refresh_data_disabled a Ha) as [-> _]. reflexivity.
Qed.

Lemma timer_fire_ignored_when_disabled_witness :
  let x := Display.run example_os
             (repeat Display.Run 7
              ++ [Display.Arrive Display.KeyToggle; Display.Run; Display.Run;
                  Display.Arrive Display.TimerFire])
             (Display.initial example_st) in
  Display.pending x = [Display.TimerFire] /\
  Display.cycles (Display.run example_os [Display.Run] x) = 1%nat /\
  Display.current (Display.run example_os [Display.Run] x) = [].
Proof.
  intros x.
  rewrite (timer_fire_ignored_when_disabled example_os x [] eq_refl eq_refl eq_refl).
  repeat split; reflexivity.
Defined.

(** X16. Whenever no handler is running, no loading indicator is
    mounted: every indicator a refresh mounts is removed before the
    handler ends, whether the cycle succeeded or failed. *)
Theorem loading_indicator_removed (o : OS) (s0 : st) (inputs : list Display.input) :
  let x := Display.run o inputs (Display.initial s0) in
  Display.current x = [] -> Display.loading (Display.app x) = 0%nat.
Proof.
  intros x Hc.
  assert (H : Indicator.indicator_inv x).
  { apply AppFacts.indicator_run. reflexivity. }
  unfold Indicator.indicator_inv in H. rewrite Hc in H. cbn in H.
  apply Nat.eqb_eq in H. exact H.
Qed.

Lemma loading_indicator_removed_witness :
  Display.loading (Display.app (Display.run os_no_address (repeat Display.Run 7)
                                  (Display.initial example_st))) = 0%nat /\
  Display.loading (Display.app (Display.run os_no_address (repeat Display.Run 3)
                                  (Display.initial example_st))) = 1%nat.
Proof.
  split; [| reflexivity].
  apply (loading_indicator_removed os_no_address example_st (repeat Display.Run 7)).
  reflexivity.
Defined.


Module MountFacts.
Import Display Indicator.

Lemma mount_step (o : OS) (i : input) (x : sched) : mount_inv x -> mount_inv (step o i x).
Proof.
  unfold mount_inv. intros [H | [Hi Hb]].
  - left. destruct i as [t |].
    + destruct t; cbn [step deliver cycles]; try exact H.
      destruct (interval_set (app x)); exact H.
    + cbn [step]. destruct (current x) as [| c rest].
      * destruct (pending x); exact H.
      * destruct c; cbn [exec cycles]; try exact H.
        destruct (read_system_data o (host x)). cbn [cycles]. lia.
  - unfold before_first_cycle in *. destruct i as [t |].
    + destruct t; cbn [step].
      2: { rewrite Hi. right. split; [exact Hi | exact Hb]. }
      all: (right; cbn [deliver app current pending]; split; [exact Hi |];
            destruct (current x); [| exact Hb];
            destruct (pending x) as [| [] ?]; cbn [List.app];
            first [exact Hb | discriminate Hb]).
    + cbn [step]. destruct (current x) as [| c rest] eqn:Ec.
      * destruct (pending x) as [| t queue]; [discriminate Hb |].
        destruct t; try discriminate Hb.
        right. cbn [app current handler]. split; [exact Hi |].
        unfold on_mount, refresh_data. rewrite Hb. reflexivity.
      * destruct c; cbn [cycle_first] in Hb; try discriminate Hb.
        -- right. cbn [exec app current interval_set set_loading]. split; [exact Hi |].
           destruct rest; [discriminate Hb | exact Hb].
        -- right. cbn [exec app current]. split; [exact Hi |].
           destruct rest; [discriminate Hb | exact Hb].
        -- left. cbn [exec]. destruct (read_system_data o (host x)). cbn [cycles]. lia.
        -- right. cbn [exec app current interval_set set_loading]. split; [exact Hi |].
           destruct rest; [discriminate Hb | exact Hb].
        -- right. cbn [exec app current interval_set notify]. split; [exact Hi |].
           destruct rest; [discriminate Hb | exact Hb].
Qed.

Lemma mount_run (o : OS) (inputs : list input) (x : sched) :
  mount_inv x -> mount_inv (run o inputs x).
Proof.
  unfold run. revert x. induction inputs as [| i inputs IH]; intros x H; [exact H |].
  cbn [fold_left]. apply IH. apply mount_step. exact H.
Qed.

End MountFacts.

(** X18. A tick is pending only when the interval timer has been armed,
    and the timer is armed only after a first cycle has completed
    ([on_mount] refreshes before it calls [set_interval]): the first
    collection is over before any tick can be delivered. *)
Theorem ticks_only_after_first_cycle (o : OS) (s0 : st) (inputs : list Display.input) :
  let x := Display.run o inputs (Display.initial s0) in
  (Display.TimerFire ∈ Display.pending x -> Display.interval_set (Display.app x) = true) /\
  (Display.interval_set (Display.app x) = true -> (1 <= Display.cycles x)%nat).
Proof.
  intros x. split.
  - apply (AppFacts.timer_run o inputs (Display.initial s0)).
    intros H. cbn in H. apply list_elem_of_singleton in H. discriminate H.
  - intros Hi.
    assert (H : Indicator.mount_inv x).
    { apply MountFacts.mount_run. right. split; reflexivity. }
    destruct H as [H | [H _]]; [exact H |].
    congruence.
Qed.

Lemma ticks_only_after_first_cycle_witness :
  let x := Display.run example_os (repeat Display.Run 7 ++ [Display.Arrive Display.TimerFire])
             (Display.initial example_st) in
  let early := Display.run example_os (repeat Display.Run 3 ++ [Display.Arrive Display.TimerFire])
                 (Display.initial example_st) in
  Display.pending x = [Display.TimerFire] /\
  Display.interval_set (Display.app x) = true /\
  (1 <= Display.cycles x)%nat /\
  Display.pending early = [].
Proof.
  intros x early.
  destruct (ticks_only_after_first_cycle example_os example_st
              (repeat Display.Run 7 ++ [Display.Arrive Display.TimerFire])) as [Ht Hc].
  split; [reflexivity |].
  assert (Hi : Display.interval_set (Display.app x) = true).
  { apply Ht. apply list_elem_of_here. }
  split; [exact Hi |]. split; [exact (Hc Hi) | reflexivity].
Defined.

(** X19. A refresh handled with auto-refresh enabled publishes what the
    cycle returned. After a successful cycle [self.data] is the
    dictionary of the new [SystemData], the label shows its time stamp
    and nobody is notified. After a failed cycle [self.data] is the
    failure descriptor (the previous data is replaced), the label keeps
    its text, and the user is notified of the [KeyError] on ['process'].
    In both cases the loading indicator is gone. *)
Theorem refresh_publishes_cycle_result (o : OS) (x : Display.sched)
    (t : Display.trigger) (queue : list Display.trigger) :
  Display.current x = [] ->
  Display.pending x = t :: queue ->
  t = Display.KeyRefresh \/ t = Display.TimerFire ->
  Display.auto_refresh (Display.app x) = true ->
  let y := Display.run o (repeat Display.Run 5) x in
  Display.host y = snd (read_system_data o (Display.host x)) /\
  Display.loading (Display.app y) = Display.loading (Display.app x) /\
  (forall d, value (collect o (Display.host x)) = Ok d ->
     Display.data (Display.app y) = Some (asdict d) /\
     Display.last_update (Display.app y) = Some (timestamp d) /\
     Display.notifications (Display.app y) = Display.notifications (Display.app x)) /\
  (forall e, value (collect o (Display.host x)) = Raise e ->
     Display.data (Display.app y) = Some (error_dict e) /\
     Display.last_update (Display.app y) = Display.last_update (Display.app x) /\
     Display.notifications (Display.app y)
     = Display.notifications (Display.app x) ++ ["Error refreshing data: 'process'"]).
Proof.
  destruct x as [a h c p n k].
  cbn [Display.current Display.pending Display.app Display.host].
  intros -> -> Ht Ha.
  assert (Hh : Display.handler t a
               = [Display.MountLoading; Display.CallCollect; Display.ReturnCollect;
                  Display.RemoveLoading]).
  { destruct Ht as [-> | ->]; cbn [Display.handler];
      unfold Display.action_refresh, Display.refresh_data; rewrite Ha; reflexivity. }
  cbv zeta.
  cbn [repeat Display.run fold_left Display.step Display.current Display.pending
       Display.app Display.host Display.in_flight Display.cycles].
  rewrite Hh.
  cbn [Display.exec Display.current Display.pending Display.app Display.host
       Display.in_flight Display.cycles].
  destruct (AppFacts.read_system_data_cases o h) as (v & s' & Hr & _ & Hv).
  rewrite Hr.
  cbn [Display.exec Display.current Display.pending Display.app Display.host
       Display.in_flight Display.cycles snd].
  split; [reflexivity |].
  split.
  - cbn [Display.loading Display.set_loading].
    destruct (AppFacts.after_collect_fields v
                (Display.set_loading (S (Display.loading a)) a)) as (_ & -> & _).
    reflexivity.
  - split.
    + intros d Hd. rewrite Hd in Hv. subst v.
      rewrite AppFacts.after_collect_asdict. repeat split; reflexivity.
    + intros e He. rewrite He in Hv. subst v.
      rewrite AppFacts.after_collect_error. repeat split; reflexivity.
Qed.

Lemma refresh_publishes_cycle_result_witness :
  let x := Display.run os_no_address (repeat Display.Run 7 ++ [Display.Arrive Display.KeyRefresh])
             (Display.initial example_st) in
  let y := Display.run os_no_address (repeat Display.Run 5) x in
  Display.data (Display.app y)
  = Some (error_dict (mk_exn OtherException "[Errno -2] Name or service not known")) /\
  Display.last_update (Display.app y) = None /\
  Display.loading (Display.app y) = 0%nat.
Proof.
  intros x y.
  destruct (refresh_publishes_cycle_result os_no_address x Display.KeyRefresh []
              eq_refl eq_refl (or_introl eq_refl) eq_refl) as (_ & Hl & _ & He).
  destruct (He (mk_exn OtherException "[Errno -2] Name or service not known") eq_refl)
    as (Hd & Hu & _).
  split; [exact Hd |]. unfold y. split; [rewrite Hu; reflexivity | rewrite Hl; reflexivity].
Defined.

(** * Properties of the displays *)

(** ** The light display *)

Module LightFacts.
Import Light.

Lemma frame_loop_complete (height : Z) (data : list ProcessInfo) (cnt : Z)
    (printed : list row) :
  forallb complete data = true ->
  frame_loop height cnt data printed
  = Ok (printed ++ rows_from cnt (take (Z.to_nat (height - 2 - cnt)) data)).
Proof.
  revert cnt printed. induction data as [| p data IH]; intros cnt printed Hall.
  - cbn [frame_loop]. rewrite take_nil. cbn [rows_from]. rewrite app_nil_r. reflexivity.
  - cbn [forallb] in Hall. apply andb_true_iff in Hall. destruct Hall as [Hp Hall].
    unfold complete in Hp. cbn [frame_loop].
    destruct (memory_percent p) as [mp |] eqn:Emp; [| discriminate Hp].
    destruct (name p) as [n |] eqn:En; [| discriminate Hp].
    destruct (Z.leb_spec (height - 2) cnt) as [Hge | Hlt].
    + replace (Z.to_nat (height - 2 - cnt)) with 0%nat by lia.
      cbn [take rows_from]. rewrite app_nil_r. reflexivity.
    + replace (Z.to_nat (height - 2 - cnt)) with (S (Z.to_nat (height - 2 - (cnt + 1))))
        by lia.
      cbn [take rows_from]. rewrite Emp, En. rewrite IH by exact Hall.
      rewrite <- app_assoc. reflexivity.
Qed.

Lemma rows_from_length (cnt : Z) (data : list ProcessInfo) :
  forallb complete data = true -> length (rows_from cnt data) = length data.
Proof.
  revert cnt. induction data as [| p data IH]; intros cnt Hall; [reflexivity |].
  cbn [forallb] in Hall. apply andb_true_iff in Hall. destruct Hall as [Hp Hall].
  unfold complete in Hp. cbn [rows_from].
  destruct (memory_percent p); [| discriminate Hp].
  destruct (name p); [| discriminate Hp].
  cbn [length]. rewrite IH by exact Hall. reflexivity.
Qed.

Lemma forallb_take {A} (f : A -> bool) (n : nat) (l : list A) :
  forallb f l = true -> forallb f (take n l) = true.
Proof.
  revert n. induction l as [| a l IH]; intros n H; [rewrite take_nil; reflexivity |].
  destruct n; [reflexivity |]. cbn [take forallb] in *.
  apply andb_true_iff in H. destruct H as [Ha H]. rewrite Ha. cbn. apply IH. exact H.
Qed.

Lemma frame_loop_missing_memory (height : Z) (l1 l2 : list ProcessInfo) (p : ProcessInfo)
    (cnt : Z) (printed : list row) :
  forallb complete l1 = true ->
  memory_percent p = None ->
  l1 = [] \/ cnt + Z.of_nat (length l1) <= height - 2 ->
  frame_loop height cnt (l1 ++ p :: l2) printed = Raise mul_none.
Proof.
  intros Hall Hp. revert cnt printed.
  induction l1 as [| a l1 IH]; intros cnt printed Hlen.
  - cbn [List.app frame_loop]. rewrite Hp. reflexivity.
  - destruct Hlen as [Hnil | Hlen]; [discriminate Hnil |].
    cbn [forallb] in Hall. apply andb_true_iff in Hall. destruct Hall as [Ha Hall].
    unfold complete in Ha. cbn [List.app frame_loop].
    destruct (memory_percent a) as [mp |]; [| discriminate Ha].
    destruct (name a) as [n |]; [| discriminate Ha].
    cbn [length] in Hlen.
    destruct (Z.leb_spec (height - 2) cnt) as [Hge | Hlt]; [lia |].
    apply IH; [exact Hall |]. right. lia.
Qed.

End LightFacts.

(** X20. When every process entry has a name and a memory share, one
    frame of the light display prints the first [height - 2] entries of
    the enumeration (all of them when there are fewer), in order, the
    i-th at screen line [i + 2], and stops there. *)
Theorem light_frame_prints_first_rows (o : OS) (s : st) (height : Z)
    (procs : list (result proc_info)) :
  process_iter o = Ok procs ->
  fatal procs = None ->
  forallb Light.complete (entries procs) = true ->
  exists rows,
    value (Light.frame o height s) = Ok rows /\
    rows = Light.rows_from 0 (take (Z.to_nat (height - 2)) (entries procs)) /\
    length rows = Nat.min (Z.to_nat (height - 2)) (length (entries procs)).
Proof.
  intros Hiter Hfatal Hall.
  eexists. split; [| split; [reflexivity |]].
  - unfold Light.frame, bind, lift, value.
    rewrite (get_running_processes_run o procs s Hiter), Hfatal. cbn [fst].
    rewrite (LightFacts.frame_loop_complete height (entries procs) 0 []) by exact Hall.
    rewrite Z.sub_0_r. reflexivity.
  - rewrite LightFacts.rows_from_length by (apply LightFacts.forallb_take; exact Hall).
    apply length_take.
Qed.

Lemma light_frame_prints_first_rows_witness :
  exists rows,
    value (Light.frame
             (with_processes (Ok [example_proc 1 "init" (Some "root");
                                  example_proc 7 "kthread" None;
                                  example_proc 9 "sshd" (Some "root")]) example_os)
             4 example_st) = Ok rows /\
    rows = [Light.mk_row 2 1 "init" "root" (1 # 2)%Q;
            Light.mk_row 3 7 "kthread" EmptyString (1 # 2)%Q] /\
    length rows = 2%nat.
Proof.
  destruct (light_frame_prints_first_rows
              (with_processes (Ok [example_proc 1 "init" (Some "root");
                                   example_proc 7 "kthread" None;
                                   example_proc 9 "sshd" (Some "root")]) example_os)
              example_st 4
              [example_proc 1 "init" (Some "root");
               example_proc 7 "kthread" None;
               example_proc 9 "sshd" (Some "root")] eq_refl eq_refl eq_refl)
    as (rows & Hv & Hr & Hl).
  exists rows. split; [exact Hv |]. split; [rewrite Hr; reflexivity | exact Hl].
Defined.

(** X21. The light display reads an entry's memory share before it tests
    whether the screen is full, and nothing catches the [TypeError] of
    [None * 100]: an entry without a memory share ends the frame with
    that exception whenever the entries before it are complete and no
    more than [height - 2] in number, also when it is the first entry
    that would no longer be printed. *)
Theorem light_frame_fails_on_missing_memory (o : OS) (s : st) (height : Z)
    (procs : list (result proc_info)) (l1 l2 : list ProcessInfo) (p : ProcessInfo) :
  process_iter o = Ok procs ->
  fatal procs = None ->
  entries procs = l1 ++ p :: l2 ->
  forallb Light.complete l1 = true ->
  memory_percent p = None ->
  (length l1 <= Z.to_nat (height - 2))%nat ->
  value (Light.frame o height s) = Raise Light.mul_none.
Proof.
  intros Hiter Hfatal Hent Hall Hp Hlen.
  unfold Light.frame, bind, lift, value.
  rewrite (get_running_processes_run o procs s Hiter), Hfatal. cbn [fst].
  rewrite Hent. apply LightFacts.frame_loop_missing_memory; [exact Hall | exact Hp |].
  destruct l1 as [| a l1]; [left; reflexivity |]. right. cbn [length] in *. lia.
Qed.

Lemma light_frame_fails_on_missing_memory_witness :
  value (Light.frame
           (with_processes
              (Ok [example_proc 1 "init" (Some "root");
                   Ok (mk_proc_info 7 (Some "kthread") None None)]) example_os)
           3 example_st) = Raise Light.mul_none.
Proof.
  apply (light_frame_fails_on_missing_memory
           (with_processes
              (Ok [example_proc 1 "init" (Some "root");
                   Ok (mk_proc_info 7 (Some "kthread") None None)]) example_os)
           example_st 3
           [example_proc 1 "init" (Some "root");
            Ok (mk_proc_info 7 (Some "kthread") None None)]
           [process_entry (mk_proc_info 1 (Some "init") (Some "root") (Some (1 # 2)%Q))]
           []
           (process_entry (mk_proc_info 7 (Some "kthread") None None)));
    first [reflexivity | vm_compute; lia].
Defined.

(** ** The process table *)

Module TableFacts.
Import Table.

Lemma insert_desc_perm (x : Q * ProcessInfo) (l : list (Q * ProcessInfo)) :
  insert_desc x l ≡ₚ x :: l.
Proof.
  induction l as [| y l IH]; cbn [insert_desc]; [reflexivity |].
  destruct (Qle_bool (fst y) (fst x)); [reflexivity |].
  rewrite IH. apply Permutation_swap.
Qed.

Lemma sorted_desc_perm (l : list (Q * ProcessInfo)) : sorted_desc l ≡ₚ l.
Proof.
  unfold sorted_desc. induction l as [| x l IH]; cbn [foldr]; [reflexivity |].
  rewrite insert_desc_perm. rewrite IH. reflexivity.
Qed.

Lemma insert_desc_sorted (x : Q * ProcessInfo) (l : list (Q * ProcessInfo)) :
  StronglySorted below l -> StronglySorted below (insert_desc x l).
Proof.
  induction 1 as [| y l Hs IH Hy]; cbn [insert_desc].
  - constructor; [constructor | constructor].
  - destruct (Qle_bool (fst y) (fst x)) eqn:E.
    + apply Qle_bool_iff in E. constructor; [constructor; assumption |].
      constructor; [exact E |].
      eapply Forall_impl; [exact Hy |]. intros z Hz. unfold below in *.
      eapply Qle_trans; [exact Hz | exact E].
    + assert (Hlt : (fst x < fst y)%Q).
      { apply Qnot_le_lt. intros Hle. apply Qle_bool_iff in Hle. congruence. }
      constructor; [exact IH |].
      rewrite insert_desc_perm. constructor; [| exact Hy].
      unfold below. apply Qlt_le_weak. exact Hlt.
Qed.

Lemma sorted_desc_sorted (l : list (Q * ProcessInfo)) : StronglySorted below (sorted_desc l).
Proof.
  unfold sorted_desc. induction l as [| x l IH]; cbn [foldr]; [constructor |].
  apply insert_desc_sorted. exact IH.
Qed.

Lemma sorted_take_drop (n : nat) (l : list (Q * ProcessInfo)) :
  StronglySorted below l ->
  StronglySorted below (take n l) /\
  forall a b, a ∈ take n l -> b ∈ drop n l -> below a b.
Proof.
  intros Hs. rewrite <- (take_drop n l) in Hs.
  apply StronglySorted_app in Hs. destruct Hs as (Hd & Ht & _).
  split; [exact Ht |]. intros a b Ha Hb. exact (Hd a b Ha Hb).
Qed.

Lemma sort_keys_length (processes : list ProcessInfo) (l : list (Q * ProcessInfo)) :
  sort_keys processes = Some l ->
  map snd l = processes /\ Forall (fun x => memory_percent (snd x) = Some (fst x)) l.
Proof.
  revert l. induction processes as [| p rest IH]; intros l H; cbn [sort_keys] in H.
  - inversion H. split; [reflexivity | constructor].
  - destruct (memory_percent p) as [k |] eqn:Ek; [| discriminate H].
    destruct (sort_keys rest) as [l' |]; [| discriminate H].
    inversion H; subst l. destruct (IH l' eq_refl) as [Hm Hf].
    cbn [map snd]. rewrite Hm. split; [reflexivity |].
    constructor; [exact Ek | exact Hf].
Qed.


Lemma update_processes_sorted (r : Rendering) (processes : list ProcessInfo)
    (l : list (Q * ProcessInfo)) :
  processes <> [] ->
  sort_keys processes = Some l ->
  update_processes r processes = map (row_of r) (shown l).
Proof.
  intros Hne Hl. destruct processes as [| p [| q rest]]; [congruence | |].
  - cbn [update_processes]. cbn [sort_keys] in Hl.
    destruct (memory_percent p) as [k |]; [| discriminate Hl].
    inversion Hl. reflexivity.
  - unfold update_processes. rewrite Hl. reflexivity.
Qed.

End TableFacts.

(** X22. When every entry has a memory share, the process table shows
    the entries with the largest shares, largest first, at most twenty of
    them: the rows are those of the first twenty entries of the list
    sorted by share in descending order, every row comes from an entry of
    the list, and no entry left out has a larger share than one shown. *)
Theorem process_table_shows_top_twenty (r : Table.Rendering)
    (processes : list ProcessInfo) (l : list (Q * ProcessInfo)) :
  processes <> [] ->
  Table.sort_keys processes = Some l ->
  Table.update_processes r processes = map (Table.row_of r) (Table.shown l) /\
  length (Table.update_processes r processes) = Nat.min 20 (length processes) /\
  StronglySorted Table.below (Table.shown l) /\
  (forall x, x ∈ Table.shown l ->
     snd x ∈ processes /\ memory_percent (snd x) = Some (fst x)) /\
  (forall a b, a ∈ Table.shown l -> b ∈ drop 20 (Table.sorted_desc l) ->
     (fst b <= fst a)%Q) /\
  Table.shown l ++ drop 20 (Table.sorted_desc l) ≡ₚ l.
Proof.
  intros Hne Hl.
  destruct (TableFacts.sort_keys_length processes l Hl) as [Hmap Hkeys].
  destruct (TableFacts.sorted_take_drop 20 _ (TableFacts.sorted_desc_sorted l)) as [Hs Htop].
  split; [apply TableFacts.update_processes_sorted; assumption |].
  split.
  - rewrite (TableFacts.update_processes_sorted r processes l Hne Hl).
    unfold Table.shown. rewrite length_map, length_take.
    rewrite (Permutation_length (TableFacts.sorted_desc_perm l)).
    rewrite <- Hmap, length_map. reflexivity.
  - split; [exact Hs |]. split; [| split; [exact Htop |]].
    + intros x Hx. unfold Table.shown in Hx.
      assert (Hin : x ∈ l).
      { rewrite <- (TableFacts.sorted_desc_perm l).
        rewrite <- (take_drop 20 (Table.sorted_desc l)). apply elem_of_app. left. exact Hx. }
      split.
      * rewrite <- Hmap. apply list_elem_of_fmap. exists x. split; [reflexivity | exact Hin].
      * rewrite Forall_forall in Hkeys. apply Hkeys. exact Hin.
    + unfold Table.shown. rewrite take_drop. apply TableFacts.sorted_desc_perm.
Qed.

Lemma process_table_shows_top_twenty_witness :
  Table.update_processes example_rendering [entry_init; entry_db; entry_kthread]
  = [("40", "postgres", "db", "3/1%");
     ("1", "init", "root", "1/2%");
     ("7", "kthread", "None", "1/2%")].
Proof.
  destruct (process_table_shows_top_twenty example_rendering
              [entry_init; entry_db; entry_kthread]
              [((1 # 2)%Q, entry_init); ((3 # 1)%Q, entry_db); ((1 # 2)%Q, entry_kthread)])
    as (H & _).
  - discriminate.
  - reflexivity.
  - rewrite H. vm_compute. reflexivity.
Defined.


